(** * Circular scroll input processors

    Shallow embedding of the two input processors of the repository,

    - [src/modules/circular_scroll.c]  (module [CircularScroll]), and
    - [src/modules/circular_scroll/circular_scroll.c]  (module
      [TrackpadScroll]),

    together with the properties of the pseudo-angle estimator and of the
    scroll tracker state machine.

    C integers are integers of [Z] with the conversions written out: the
    target is a 32-bit microcontroller, so [int] and [unsigned] are 32 bits
    wide, [int16_t] and [uint16_t] operands are promoted to [int] before
    any arithmetic, and a value stored in a narrower type is reduced modulo
    the width of that type. *)

From Stdlib Require Import ZArith Lia List Bool.
Import ListNotations.
Local Open Scope Z_scope.

(** ** Machine integers *)

Module CInt.

(** Conversion to an unsigned type of [w] bits. *)
Definition to_unsigned (w : Z) (z : Z) : Z := z mod 2 ^ w.

(** Conversion to a signed (two's complement) type of [w] bits. *)
Definition to_signed (w : Z) (z : Z) : Z :=
  (z + 2 ^ (w - 1)) mod 2 ^ w - 2 ^ (w - 1).

Definition to_int16 : Z -> Z := to_signed 16.
Definition to_uint16 : Z -> Z := to_unsigned 16.
Definition to_int32 : Z -> Z := to_signed 32.
Definition to_uint32 : Z -> Z := to_unsigned 32.

(** Representability in each of the four types. *)
Definition fits_int16 (z : Z) : bool := (-32768 <=? z) && (z <=? 32767).
Definition fits_uint16 (z : Z) : bool := (0 <=? z) && (z <=? 65535).
Definition fits_int32 (z : Z) : bool :=
  (-2147483648 <=? z) && (z <=? 2147483647).
Definition fits_uint32 (z : Z) : bool := (0 <=? z) && (z <=? 4294967295).

Definition int16 (z : Z) : Prop := -32768 <= z <= 32767.

End CInt.
Import CInt.

(** ** The events of the host framework

    The headers [zmk/input_processor.h] and [zmk/pointing.h], which declare
    the event structures and their type constants, are not among the
    sources. *)

(** Modelled from the spec: the enumeration of input event types of
    [zmk/input_processor.h] is missing.  The processors only compare an
    event's type with [ZMK_INPUT_EVENT_TYPE_POINTING]; every other type is
    kept by its code. *)
Inductive zmk_input_event_type : Type :=
| ZMK_INPUT_EVENT_TYPE_POINTING
| ZMK_INPUT_EVENT_TYPE_OTHER (code : Z).

(** Modelled from the spec: the enumeration of pointing event types of
    [zmk/pointing.h] is missing.  The processors only store
    [ZMK_POINTING_EVENT_SCROLL]; every other type is kept by its code. *)
Inductive zmk_pointing_event_type : Type :=
| ZMK_POINTING_EVENT_SCROLL
| ZMK_POINTING_EVENT_OTHER (code : Z).

(** Modelled from the spec: [struct zmk_pointing_event] of
    [zmk/pointing.h] is missing.  The processors use its fields [dx], [dy]
    and [type]; the displacements are 16-bit signed, as the motion samples
    of the specification are and as the [int16_t] locals that read them
    are. *)
Record zmk_pointing_event : Type := mk_pointing_event {
  pev_dx : Z;
  pev_dy : Z;
  pev_type : zmk_pointing_event_type
}.

(** Modelled from the spec: [struct zmk_input_event] of
    [zmk/input_processor.h] is missing.  The processors use its fields
    [type] and [pointing]. *)
Record zmk_input_event : Type := mk_input_event {
  ev_type : zmk_input_event_type;
  ev_pointing : zmk_pointing_event
}.

Definition is_pointing (t : zmk_input_event_type) : bool :=
  match t with
  | ZMK_INPUT_EVENT_TYPE_POINTING => true
  | ZMK_INPUT_EVENT_TYPE_OTHER _ => false
  end.

(** A motion sample as the framework delivers it. *)
Definition motion (dx dy : Z) : zmk_input_event :=
  mk_input_event ZMK_INPUT_EVENT_TYPE_POINTING
    (mk_pointing_event dx dy (ZMK_POINTING_EVENT_OTHER 0)).

(** The event a processor leaves behind when it reports a scroll. *)
Definition scroll_event (v : Z) : zmk_input_event :=
  mk_input_event ZMK_INPUT_EVENT_TYPE_POINTING
    (mk_pointing_event 0 v ZMK_POINTING_EVENT_SCROLL).

(** ** [src/modules/circular_scroll.c] *)

Module CircularScroll.

Record circular_scroll_state : Type := mk_state {
  active : bool;
  prev_angle : Z
}.

(** The initialiser of the static [cs_state]. *)
Definition cs_state : circular_scroll_state := mk_state false 0.

(** [pseudo_angle], lines 37-55.  [abs] works on [int]; its result is
    stored in an [int16_t].  [ay * 1024U] and the division are unsigned
    32-bit operations, as are the sums that build the angle; [sum],
    [ratio] and [angle] are [uint16_t]. *)
Definition pseudo_angle (dx dy : Z) : Z :=
  let ax := to_int16 (Z.abs dx) in
  let ay := to_int16 (Z.abs dy) in
  let sum := to_uint16 (to_int32 (ax + ay)) in
  if sum =? 0 then 0
  else
    let ratio :=
      to_uint16 (to_uint32 (to_uint32 ay * 1024) / to_uint32 sum) in
    if (dx >=? 0) && (dy >=? 0) then ratio
    else if (dx <? 0) && (dy >=? 0) then
      to_uint16 (to_uint32 (1024 + to_uint32 (1024 - to_uint32 ratio)))
    else if (dx <? 0) && (dy <? 0) then
      to_uint16 (to_uint32 (2048 + to_uint32 ratio))
    else
      to_uint16 (to_uint32 (3072 + to_uint32 (1024 - to_uint32 ratio))).

(** Line 71: [int32_t mag_sq = dx * dx + dy * dy], on [int]. *)
Definition mag_sq (dx dy : Z) : Z :=
  to_int32 (to_int32 (dx * dx) + to_int32 (dy * dy)).

Definition dead_zone_sq : Z := 25.

(** Lines 88-93: the difference of the two angles, each cast to
    [int16_t], stored in the [int16_t] [delta] and moved back into the
    half turn around zero. *)
Definition angle_delta (angle prev : Z) : Z :=
  let delta := to_int16 (to_int32 (to_int16 angle - to_int16 prev)) in
  if delta >? 2048 then to_int16 (to_int32 (delta - 4096))
  else if delta <? -2048 then to_int16 (to_int32 (delta + 4096))
  else delta.

(** Line 100 with the literal [10] as the parameter [gain]:
    [int scroll_value = (delta * gain) / 1024].  C division truncates
    toward zero. *)
Definition scroll_value (gain delta : Z) : Z :=
  to_int32 (Z.quot (to_int32 (delta * gain)) 1024).

(** [circular_scroll_process], lines 61-112, with the gain numerator as
    a parameter.  The result is the new [cs_state], the event as the
    function leaves it, and the returned [int]. *)
Definition process_gain (gain : Z) (st : circular_scroll_state)
    (event : zmk_input_event)
  : circular_scroll_state * zmk_input_event * Z :=
  if negb (is_pointing (ev_type event)) then (st, event, 0)
  else
    let pevent := ev_pointing event in
    let dx := to_int16 (pev_dx pevent) in
    let dy := to_int16 (pev_dy pevent) in
    if mag_sq dx dy <? dead_zone_sq then
      (mk_state false (prev_angle st), event, 0)
    else
      let angle := pseudo_angle dx dy in
      if negb (active st) then (mk_state true angle, event, 0)
      else
        let delta := angle_delta angle (prev_angle st) in
        let v := scroll_value gain delta in
        (mk_state (active st) angle,
         mk_input_event (ev_type event)
           (mk_pointing_event 0 (to_int16 v) ZMK_POINTING_EVENT_SCROLL),
         1).

(** The function as the file has it: the numerator is [10]. *)
Definition circular_scroll_process
  : circular_scroll_state -> zmk_input_event ->
    circular_scroll_state * zmk_input_event * Z :=
  process_gain 10.

(** [circular_scroll_init], lines 114-118. *)
Definition circular_scroll_init (_ : circular_scroll_state)
  : circular_scroll_state * Z :=
  (mk_state false 0, 0).

End CircularScroll.

(** ** [src/modules/circular_scroll/circular_scroll.c] *)

Module TrackpadScroll.

Record trackpad_scroll_state : Type := mk_state {
  active : bool;
  prev_angle : Z
}.

(** The initialiser of the static [tp_state]. *)
Definition tp_state : trackpad_scroll_state := mk_state false 0.

(** [compute_pseudo_angle], lines 28-48. *)
Definition compute_pseudo_angle (dx dy : Z) : Z :=
  let adx := to_int16 (Z.abs dx) in
  let ady := to_int16 (Z.abs dy) in
  let sum := to_uint16 (to_int32 (adx + ady)) in
  if sum =? 0 then 0
  else
    let ratio :=
      to_uint16 (to_uint32 (to_uint32 ady * 1024) / to_uint32 sum) in
    if (dx >=? 0) && (dy >=? 0) then ratio
    else if (dx <? 0) && (dy >=? 0) then
      to_uint16 (to_uint32 (1024 + to_uint32 (1024 - to_uint32 ratio)))
    else if (dx <? 0) && (dy <? 0) then
      to_uint16 (to_uint32 (2048 + to_uint32 ratio))
    else
      to_uint16 (to_uint32 (3072 + to_uint32 (1024 - to_uint32 ratio))).

(** Line 64. *)
Definition mag_sq (dx dy : Z) : Z :=
  to_int32 (to_int32 (dx * dx) + to_int32 (dy * dy)).

Definition dead_zone_sq : Z := 25.

(** Lines 79-84. *)
Definition angle_delta (angle prev : Z) : Z :=
  let delta := to_int16 (to_int32 (to_int16 angle - to_int16 prev)) in
  if delta >? 2048 then to_int16 (to_int32 (delta - 4096))
  else if delta <? -2048 then to_int16 (to_int32 (delta + 4096))
  else delta.

(** Line 90 with the literal [1] as the parameter [gain]. *)
Definition scroll_value (gain delta : Z) : Z :=
  to_int32 (Z.quot (to_int32 (delta * gain)) 1024).

(** [trackpad_scroll_process], lines 55-100, with the gain numerator as
    a parameter. *)
Definition process_gain (gain : Z) (st : trackpad_scroll_state)
    (event : zmk_input_event)
  : trackpad_scroll_state * zmk_input_event * Z :=
  if negb (is_pointing (ev_type event)) then (st, event, 0)
  else
    let pevent := ev_pointing event in
    let dx := to_int16 (pev_dx pevent) in
    let dy := to_int16 (pev_dy pevent) in
    if mag_sq dx dy <? dead_zone_sq then
      (mk_state false (prev_angle st), event, 0)
    else
      let angle := compute_pseudo_angle dx dy in
      if negb (active st) then (mk_state true angle, event, 0)
      else
        let delta := angle_delta angle (prev_angle st) in
        let v := scroll_value gain delta in
        (mk_state (active st) angle,
         mk_input_event (ev_type event)
           (mk_pointing_event 0 (to_int16 v) ZMK_POINTING_EVENT_SCROLL),
         1).

(** The function as the file has it: the numerator is [1]. *)
Definition trackpad_scroll_process
  : trackpad_scroll_state -> zmk_input_event ->
    trackpad_scroll_state * zmk_input_event * Z :=
  process_gain 1.

(** [trackpad_scroll_init], lines 102-106. *)
Definition trackpad_scroll_init (_ : trackpad_scroll_state)
  : trackpad_scroll_state * Z :=
  (mk_state false 0, 0).

End TrackpadScroll.

(** ** Feeding a processor a sequence of events

    The framework calls a processor once per event, one call after the
    other; [run] threads the static state through the calls and collects,
    for each call, the event as it was left and the returned code. *)

Fixpoint run {S : Type}
    (process : S -> zmk_input_event -> S * zmk_input_event * Z)
    (st : S) (events : list zmk_input_event)
  : S * list (zmk_input_event * Z) :=
  match events with
  | [] => (st, [])
  | e :: rest =>
      let '(st1, e1, r) := process st e in
      let '(st2, out) := run process st1 rest in
      (st2, (e1, r) :: out)
  end.

(** The two state structures have the same fields. *)
Definition as_trackpad (st : CircularScroll.circular_scroll_state)
  : TrackpadScroll.trackpad_scroll_state :=
  TrackpadScroll.mk_state (CircularScroll.active st)
    (CircularScroll.prev_angle st).

(** ** The estimator over unbounded integers

    The computation of [pseudo_angle] with mathematical integers in place
    of the C types: no conversion, no wrap-around. *)

Definition ideal_angle (dx dy : Z) : Z :=
  let ax := Z.abs dx in
  let ay := Z.abs dy in
  let sum := ax + ay in
  if sum =? 0 then 0
  else
    let ratio := (ay * 1024) / sum in
    if (dx >=? 0) && (dy >=? 0) then ratio
    else if (dx <? 0) && (dy >=? 0) then 1024 + (1024 - ratio)
    else if (dx <? 0) && (dy <? 0) then 2048 + ratio
    else 3072 + (1024 - ratio).

(** The quadrant table with half-open sub-ranges. *)
Definition in_quadrant_half_open (dx dy a : Z) : Prop :=
  (0 <= dx -> 0 <= dy -> 0 <= a < 1024) /\
  (dx < 0 -> 0 <= dy -> 1024 <= a < 2048) /\
  (dx < 0 -> dy < 0 -> 2048 <= a < 3072) /\
  (0 <= dx -> dy < 0 -> 3072 <= a < 4096).

(** The quadrant table as the code fills it: the sub-ranges of the first,
    second and fourth quadrant include their upper end. *)
Definition in_quadrant (dx dy a : Z) : Prop :=
  (0 <= dx -> 0 <= dy -> 0 <= a <= 1024) /\
  (dx < 0 -> 0 <= dy -> 1024 <= a <= 2048) /\
  (dx < 0 -> dy < 0 -> 2048 <= a < 3072) /\
  (0 <= dx -> dy < 0 -> 3072 <= a <= 4096).

(** The stored angle is on the circle, both ends included. *)
Definition on_circle (st : CircularScroll.circular_scroll_state) : Prop :=
  0 <= CircularScroll.prev_angle st <= 4096.

(** A sample whose [dy] is not the most negative [int16_t]. *)
Definition angle_safe (event : zmk_input_event) : Prop :=
  int16 (pev_dx (ev_pointing event)) /\
  -32768 < pev_dy (ev_pointing event) <= 32767.

(** A sample with neither coordinate the most negative [int16_t]. *)
Definition overflow_safe (event : zmk_input_event) : Prop :=
  -32768 < pev_dx (ev_pointing event) <= 32767 /\
  -32768 < pev_dy (ev_pointing event) <= 32767.

(** The events a processor looks at, and the entries of a [run] that come
    from them. *)
Definition pointing_event (event : zmk_input_event) : bool :=
  is_pointing (ev_type event).

Definition pointing_output (o : zmk_input_event * Z) : bool :=
  is_pointing (ev_type (fst o)).

(** The stored angle of the trackpad file is on the circle. *)
Definition trackpad_on_circle (st : TrackpadScroll.trackpad_scroll_state)
  : Prop :=
  0 <= TrackpadScroll.prev_angle st <= 4096.

(** ** The processor with every arithmetic step checked

    [Checked] repeats [pseudo_angle] and [circular_scroll_process] with
    each intermediate result tested against the C type that receives it.
    A result that is not representable stops the computation and names the
    step. *)

Module Checked.

Inductive step : Type :=
| StepLoad | StepMagSq | StepAbs | StepSum | StepRatio | StepAngle
| StepDelta | StepGain | StepStore.

Inductive checked (A : Type) : Type :=
| Ok (a : A)
| Overflow (s : step).
Arguments Ok {A} a.
Arguments Overflow {A} s.

Definition bind {A B : Type} (c : checked A) (k : A -> checked B)
  : checked B :=
  match c with
  | Ok a => k a
  | Overflow s => Overflow s
  end.

Notation "x <- c ;; k" := (bind c (fun x => k))
  (at level 61, c at next level, right associativity).

Definition need (s : step) (fits : Z -> bool) (z : Z) : checked Z :=
  if fits z then Ok z else Overflow s.

Definition pseudo_angle (dx dy : Z) : checked Z :=
  ax <- need StepAbs fits_int16 (Z.abs dx) ;;
  ay <- need StepAbs fits_int16 (Z.abs dy) ;;
  s <- need StepSum fits_int32 (ax + ay) ;;
  sum <- need StepSum fits_uint16 s ;;
  if sum =? 0 then Ok 0
  else
    ayu <- need StepRatio fits_uint32 ay ;;
    p <- need StepRatio fits_uint32 (ayu * 1024) ;;
    ratio <- need StepRatio fits_uint16 (p / sum) ;;
    if (dx >=? 0) && (dy >=? 0) then Ok ratio
    else if (dx <? 0) && (dy >=? 0) then
      d <- need StepAngle fits_uint32 (1024 - ratio) ;;
      a <- need StepAngle fits_uint32 (1024 + d) ;;
      need StepAngle fits_uint16 a
    else if (dx <? 0) && (dy <? 0) then
      a <- need StepAngle fits_uint32 (2048 + ratio) ;;
      need StepAngle fits_uint16 a
    else
      d <- need StepAngle fits_uint32 (1024 - ratio) ;;
      a <- need StepAngle fits_uint32 (3072 + d) ;;
      need StepAngle fits_uint16 a.

Definition mag_sq (dx dy : Z) : checked Z :=
  xx <- need StepMagSq fits_int32 (dx * dx) ;;
  yy <- need StepMagSq fits_int32 (dy * dy) ;;
  need StepMagSq fits_int32 (xx + yy).

Definition angle_delta (angle prev : Z) : checked Z :=
  a <- need StepDelta fits_int16 angle ;;
  p <- need StepDelta fits_int16 prev ;;
  d <- need StepDelta fits_int32 (a - p) ;;
  delta <- need StepDelta fits_int16 d ;;
  if delta >? 2048 then
    d1 <- need StepDelta fits_int32 (delta - 4096) ;;
    need StepDelta fits_int16 d1
  else if delta <? -2048 then
    d1 <- need StepDelta fits_int32 (delta + 4096) ;;
    need StepDelta fits_int16 d1
  else Ok delta.

Definition scroll_value (gain delta : Z) : checked Z :=
  m <- need StepGain fits_int32 (delta * gain) ;;
  need StepGain fits_int32 (Z.quot m 1024).

Definition process_gain (gain : Z)
    (st : CircularScroll.circular_scroll_state) (event : zmk_input_event)
  : checked (CircularScroll.circular_scroll_state * zmk_input_event * Z) :=
  if negb (is_pointing (ev_type event)) then Ok (st, event, 0)
  else
    let pevent := ev_pointing event in
    dx <- need StepLoad fits_int16 (pev_dx pevent) ;;
    dy <- need StepLoad fits_int16 (pev_dy pevent) ;;
    m <- mag_sq dx dy ;;
    if m <? CircularScroll.dead_zone_sq then
      Ok (CircularScroll.mk_state false (CircularScroll.prev_angle st),
          event, 0)
    else
      angle <- pseudo_angle dx dy ;;
      if negb (CircularScroll.active st) then
        Ok (CircularScroll.mk_state true angle, event, 0)
      else
        delta <- angle_delta angle (CircularScroll.prev_angle st) ;;
        v <- scroll_value gain delta ;;
        out <- need StepStore fits_int16 v ;;
        Ok (CircularScroll.mk_state (CircularScroll.active st) angle,
            mk_input_event (ev_type event)
              (mk_pointing_event 0 out ZMK_POINTING_EVENT_SCROLL),
            1).

Definition circular_scroll_process := process_gain 10.

End Checked.

(** * Properties *)

(** ** Conversions that change nothing *)

Section Conversions.

Lemma to_int16_small (z : Z) : -32768 <= z <= 32767 -> to_int16 z = z.
Proof.
  intros Hz. unfold to_int16, to_signed.
  change (2 ^ (16 - 1)) with 32768. change (2 ^ 16) with 65536.
  rewrite Z.mod_small; lia.
Qed.

Lemma to_uint16_small (z : Z) : 0 <= z <= 65535 -> to_uint16 z = z.
Proof.
  intros Hz. unfold to_uint16, to_unsigned.
  change (2 ^ 16) with 65536. apply Z.mod_small; lia.
Qed.

Lemma to_int32_small (z : Z) :
  -2147483648 <= z <= 2147483647 -> to_int32 z = z.
Proof.
  intros Hz. unfold to_int32, to_signed.
  change (2 ^ (32 - 1)) with 2147483648. change (2 ^ 32) with 4294967296.
  rewrite Z.mod_small; lia.
Qed.

Lemma to_uint32_small (z : Z) : 0 <= z <= 4294967295 -> to_uint32 z = z.
Proof.
  intros Hz. unfold to_uint32, to_unsigned.
  change (2 ^ 32) with 4294967296. apply Z.mod_small; lia.
Qed.

Lemma fits_int16_iff (z : Z) : fits_int16 z = true <-> -32768 <= z <= 32767.
Proof. unfold fits_int16. rewrite andb_true_iff, !Z.leb_le. tauto. Qed.

Lemma fits_uint16_iff (z : Z) : fits_uint16 z = true <-> 0 <= z <= 65535.
Proof. unfold fits_uint16. rewrite andb_true_iff, !Z.leb_le. tauto. Qed.

Lemma fits_int32_iff (z : Z) :
  fits_int32 z = true <-> -2147483648 <= z <= 2147483647.
Proof. unfold fits_int32. rewrite andb_true_iff, !Z.leb_le. tauto. Qed.

Lemma fits_uint32_iff (z : Z) :
  fits_uint32 z = true <-> 0 <= z <= 4294967295.
Proof. unfold fits_uint32. rewrite andb_true_iff, !Z.leb_le. tauto. Qed.

(** [abs] of the most negative [int16_t] does not fit an [int16_t]. *)
Lemma to_int16_abs_min : to_int16 (Z.abs (-32768)) = -32768.
Proof. reflexivity. Qed.

End Conversions.

(** ** The estimator *)

Section Estimator.

Import CircularScroll.

(** The ratio of the estimator is at most [1024], and below [1024] as soon
    as the other coordinate is not zero. *)
Lemma ratio_bounds (ax ay : Z) :
  0 <= ax -> 0 <= ay -> 0 < ax + ay ->
  0 <= ay * 1024 / (ax + ay) <= 1024 /\
  (0 < ax -> ay * 1024 / (ax + ay) < 1024).
Proof.
  intros Hx Hy Hs. repeat split.
  - apply Z.div_pos; lia.
  - apply Z.div_le_upper_bound; nia.
  - intros Hpos. apply Z.div_lt_upper_bound; nia.
Qed.

(** The [uint16_t] [sum] is the sum of the two absolute values whenever
    [dy] is not the most negative value, also for [dx = -32768]. *)
Lemma sum_exact (dx dy : Z) :
  int16 dx -> int16 dy -> -32768 < dy ->
  to_uint16 (to_int32 (to_int16 (Z.abs dx) + to_int16 (Z.abs dy)))
  = Z.abs dx + Z.abs dy.
Proof.
  unfold int16. intros Hx Hy Hmin.
  rewrite (to_int16_small (Z.abs dy)) by lia.
  destruct (Z.eq_dec dx (-32768)) as [->|Hne].
  - rewrite to_int16_abs_min.
    rewrite to_int32_small by lia.
    unfold to_uint16, to_unsigned. change (2 ^ 16) with 65536.
    replace (-32768 + Z.abs dy) with (Z.abs dy + 32768 + (-1) * 65536) by lia.
    rewrite Z.mod_add by lia. rewrite Z.mod_small; lia.
  - rewrite (to_int16_small (Z.abs dx)) by lia.
    rewrite to_int32_small by lia.
    apply to_uint16_small. lia.
Qed.

(** On every sample whose [dy] is not the most negative value the C
    function computes the angle of the unbounded computation. *)
Lemma pseudo_angle_ideal (dx dy : Z) :
  int16 dx -> int16 dy -> -32768 < dy ->
  pseudo_angle dx dy = ideal_angle dx dy.
Proof.
  intros Hx Hy Hmin. unfold pseudo_angle, ideal_angle.
  rewrite sum_exact by assumption.
  unfold int16 in *.
  destruct (Z.abs dx + Z.abs dy =? 0) eqn:Hs; [reflexivity|].
  apply Z.eqb_neq in Hs.
  rewrite (to_int16_small (Z.abs dy)) by lia.
  rewrite (to_uint32_small (Z.abs dy)) by lia.
  rewrite (to_uint32_small (Z.abs dy * 1024)) by lia.
  rewrite (to_uint32_small (Z.abs dx + Z.abs dy)) by lia.
  destruct (ratio_bounds (Z.abs dx) (Z.abs dy)) as [[Hr0 Hr1] _]; try lia.
  set (ratio := Z.abs dy * 1024 / (Z.abs dx + Z.abs dy)) in *.
  rewrite (to_uint16_small ratio) by lia.
  rewrite (to_uint32_small ratio) by lia.
  rewrite (to_uint32_small (1024 - ratio)) by lia.
  rewrite (to_uint32_small (1024 + (1024 - ratio))) by lia.
  rewrite (to_uint32_small (2048 + ratio)) by lia.
  rewrite (to_uint32_small (3072 + (1024 - ratio))) by lia.
  rewrite (to_uint16_small (1024 + (1024 - ratio))) by lia.
  rewrite (to_uint16_small (2048 + ratio)) by lia.
  rewrite (to_uint16_small (3072 + (1024 - ratio))) by lia.
  reflexivity.
Qed.

(** The unbounded computation fills the quadrant table. *)
Lemma ideal_angle_in_quadrant (dx dy : Z) :
  in_quadrant dx dy (ideal_angle dx dy).
Proof.
  unfold in_quadrant, ideal_angle.
  destruct (Z.abs dx + Z.abs dy =? 0) eqn:Hs.
  - apply Z.eqb_eq in Hs. repeat split; lia.
  - apply Z.eqb_neq in Hs.
    destruct (ratio_bounds (Z.abs dx) (Z.abs dy)) as [[Hr0 Hr1] Hr2]; try lia.
    set (ratio := Z.abs dy * 1024 / (Z.abs dx + Z.abs dy)) in *.
    assert (Hpos : dx <> 0 -> ratio < 1024) by (intros; apply Hr2; lia).
    split; [|split; [|split]]; intros Hdx Hdy;
      destruct (Z.geb_spec dx 0); destruct (Z.geb_spec dy 0);
      destruct (Z.ltb_spec dx 0); destruct (Z.ltb_spec dy 0);
      cbn [andb]; lia.
Qed.

(** The unbounded computation stays on the circle, both ends included. *)
Lemma ideal_angle_range (dx dy : Z) : 0 <= ideal_angle dx dy <= 4096.
Proof.
  destruct (ideal_angle_in_quadrant dx dy) as (Q1 & Q2 & Q3 & Q4).
  destruct (Z_lt_le_dec dx 0), (Z_lt_le_dec dy 0).
  - specialize (Q3 ltac:(lia) ltac:(lia)). lia.
  - specialize (Q2 ltac:(lia) ltac:(lia)). lia.
  - specialize (Q4 ltac:(lia) ltac:(lia)). lia.
  - specialize (Q1 ltac:(lia) ltac:(lia)). lia.
Qed.

(** The two files hold the same estimator. *)
Lemma compute_pseudo_angle_eq (dx dy : Z) :
  TrackpadScroll.compute_pseudo_angle dx dy = pseudo_angle dx dy.
Proof.
  unfold TrackpadScroll.compute_pseudo_angle, pseudo_angle. reflexivity.
Qed.

(** The upper end of the range is reached with ordinary samples: a sample
    just below the positive x axis is given the full turn. *)
Lemma pseudo_angle_full_turn : pseudo_angle 1024 (-1) = 4096.
Proof. reflexivity. Qed.

(** With [dy = -32768] the value of [abs] does not fit [ay]; the ratio is
    then computed from a wrapped product and the angle leaves the circle. *)
Lemma pseudo_angle_int16_min : pseudo_angle 0 (-32768) = 5120.
Proof. reflexivity. Qed.

(** C1, as stated: the half-open range [0, 4096) is left at the int16
    sample (1024, -1), whose angle is 4096. *)
Lemma pseudo_angle_half_open_range_fails :
  int16 1024 /\ int16 (-1) /\ ~ (0 <= pseudo_angle 1024 (-1) < 4096).
Proof.
  unfold int16. rewrite pseudo_angle_full_turn. lia.
Qed.

(** C1, amended: for every pair of int16 inputs dx, dy with dy other than
    -32768, the angle estimator returns a value in the closed range
    [0, 4096]. *)
Theorem pseudo_angle_closed_range (dx dy : Z) :
  int16 dx -> int16 dy -> -32768 < dy ->
  0 <= pseudo_angle dx dy <= 4096.
Proof.
  intros Hx Hy Hmin. rewrite pseudo_angle_ideal by assumption.
  apply ideal_angle_range.
Qed.

Lemma pseudo_angle_closed_range_witness :
  int16 1024 /\ int16 (-1) /\ -32768 < -1 /\
  0 <= pseudo_angle 1024 (-1) <= 4096.
Proof.
  assert (Hx : int16 1024) by (unfold int16; lia).
  assert (Hy : int16 (-1)) by (unfold int16; lia).
  assert (Hmin : -32768 < -1) by lia.
  repeat split; try assumption;
    apply (pseudo_angle_closed_range 1024 (-1) Hx Hy Hmin).
Defined.

(** C3, as stated: the sample (-1, 0) lies in the second quadrant of the
    table, and its angle 2048 is outside [1024, 2048). *)
Lemma pseudo_angle_half_open_quadrant_fails :
  int16 (-1) /\ int16 0 /\
  ~ in_quadrant_half_open (-1) 0 (pseudo_angle (-1) 0).
Proof.
  unfold int16. repeat split; try lia.
  intros (_ & Q2 & _). change (pseudo_angle (-1) 0) with 2048 in Q2. lia.
Qed.

(** The first and the fourth quadrant reach their upper end as well. *)
Lemma pseudo_angle_quadrant_ends :
  pseudo_angle 0 1 = 1024 /\ pseudo_angle (-1) 0 = 2048 /\
  pseudo_angle 0 (-1) = 3072 /\ pseudo_angle 1024 (-1) = 4096.
Proof. repeat split. Qed.

(** C3, amended: for every pair of int16 inputs dx, dy with dy other than
    -32768, the angle lies in the sub-range of its quadrant, the upper end
    included in three of them: [0,1024] when dx>=0 and dy>=0; [1024,2048]
    when dx<0 and dy>=0; [2048,3072) when dx<0 and dy<0; [3072,4096] when
    dx>=0 and dy<0. *)
Theorem pseudo_angle_quadrant (dx dy : Z) :
  int16 dx -> int16 dy -> -32768 < dy ->
  in_quadrant dx dy (pseudo_angle dx dy).
Proof.
  intros Hx Hy Hmin. rewrite pseudo_angle_ideal by assumption.
  apply ideal_angle_in_quadrant.
Qed.

Lemma pseudo_angle_quadrant_witness :
  int16 (-1) /\ int16 0 /\ -32768 < 0 /\
  in_quadrant (-1) 0 (pseudo_angle (-1) 0).
Proof.
  assert (Hx : int16 (-1)) by (unfold int16; lia).
  assert (Hy : int16 0) by (unfold int16; lia).
  assert (Hmin : -32768 < 0) by lia.
  split; [assumption|]. split; [assumption|]. split; [assumption|].
  apply (pseudo_angle_quadrant (-1) 0 Hx Hy Hmin).
Defined.

(** C8: on the four axes and at the origin the estimator returns
    estimate(1,0) = 0, estimate(0,1) = 1024, estimate(-1,0) = 2048,
    estimate(0,-1) = 3072 and estimate(0,0) = 0; so does the estimator of
    the trackpad file. *)
Theorem pseudo_angle_axes :
  (pseudo_angle 1 0 = 0 /\ pseudo_angle 0 1 = 1024 /\
   pseudo_angle (-1) 0 = 2048 /\ pseudo_angle 0 (-1) = 3072 /\
   pseudo_angle 0 0 = 0) /\
  (TrackpadScroll.compute_pseudo_angle 1 0 = 0 /\
   TrackpadScroll.compute_pseudo_angle 0 1 = 1024 /\
   TrackpadScroll.compute_pseudo_angle (-1) 0 = 2048 /\
   TrackpadScroll.compute_pseudo_angle 0 (-1) = 3072 /\
   TrackpadScroll.compute_pseudo_angle 0 0 = 0).
Proof. repeat split. Qed.

End Estimator.

(** ** The tracker *)

Section Tracker.

Import CircularScroll.

(** A sample inside the dead zone has small coordinates. *)
Lemma dead_zone_small (dx dy : Z) :
  dx * dx + dy * dy < 25 -> -4 <= dx <= 4 /\ -4 <= dy <= 4.
Proof. intros H. nia. Qed.

(** [mag_sq] is the sum of the squares unless both coordinates are the
    most negative value. *)
Lemma mag_sq_exact (dx dy : Z) :
  int16 dx -> int16 dy -> ~ (dx = -32768 /\ dy = -32768) ->
  mag_sq dx dy = dx * dx + dy * dy.
Proof.
  unfold int16, mag_sq. intros Hx Hy Hne.
  assert (0 <= dx * dx <= 1073741824) by nia.
  assert (0 <= dy * dy <= 1073741824) by nia.
  assert (dx <> -32768 -> dx * dx <= 1073676289) by nia.
  assert (dy <> -32768 -> dy * dy <= 1073676289) by nia.
  rewrite (to_int32_small (dx * dx)) by lia.
  rewrite (to_int32_small (dy * dy)) by lia.
  apply to_int32_small. lia.
Qed.

(** With both coordinates at the most negative value the sum of the
    squares is [2^31]; the [int] addition overflows and the stored value
    is negative. *)
Lemma mag_sq_int16_min : mag_sq (-32768) (-32768) = -2147483648.
Proof. reflexivity. Qed.

(** The dead-zone branch, lines 73-76 and 66-69. *)
Lemma dead_zone_step (gain : Z) (st : circular_scroll_state)
    (event : zmk_input_event) :
  is_pointing (ev_type event) = true ->
  pev_dx (ev_pointing event) * pev_dx (ev_pointing event)
  + pev_dy (ev_pointing event) * pev_dy (ev_pointing event) < 25 ->
  process_gain gain st event = (mk_state false (prev_angle st), event, 0).
Proof.
  intros Hp Hm. unfold process_gain. rewrite Hp. cbn [negb].
  destruct (dead_zone_small _ _ Hm) as [Hx Hy].
  rewrite !to_int16_small by lia.
  rewrite mag_sq_exact by (unfold int16; lia).
  unfold dead_zone_sq.
  destruct (Z.ltb_spec
    (pev_dx (ev_pointing event) * pev_dx (ev_pointing event)
     + pev_dy (ev_pointing event) * pev_dy (ev_pointing event)) 25);
    [reflexivity | lia].
Qed.

Lemma trackpad_dead_zone_step (gain : Z)
    (st : TrackpadScroll.trackpad_scroll_state) (event : zmk_input_event) :
  is_pointing (ev_type event) = true ->
  pev_dx (ev_pointing event) * pev_dx (ev_pointing event)
  + pev_dy (ev_pointing event) * pev_dy (ev_pointing event) < 25 ->
  TrackpadScroll.process_gain gain st event
  = (TrackpadScroll.mk_state false (TrackpadScroll.prev_angle st), event, 0).
Proof.
  intros Hp Hm. unfold TrackpadScroll.process_gain. rewrite Hp. cbn [negb].
  destruct (dead_zone_small _ _ Hm) as [Hx Hy].
  rewrite !to_int16_small by lia.
  change TrackpadScroll.mag_sq with mag_sq.
  rewrite mag_sq_exact by (unfold int16; lia).
  unfold TrackpadScroll.dead_zone_sq.
  destruct (Z.ltb_spec
    (pev_dx (ev_pointing event) * pev_dx (ev_pointing event)
     + pev_dy (ev_pointing event) * pev_dy (ev_pointing event)) 25);
    [reflexivity | lia].
Qed.

(** C4: for every tracker state, active or not, and every sample with
    dx^2 + dy^2 < 25, the process function emits no scroll output (it returns
    0 and leaves the event as it was) and the resulting state is inactive;
    this holds for both processors. *)
Theorem dead_zone_forces_inactive (st : circular_scroll_state)
    (tst : TrackpadScroll.trackpad_scroll_state) (event : zmk_input_event) :
  is_pointing (ev_type event) = true ->
  pev_dx (ev_pointing event) * pev_dx (ev_pointing event)
  + pev_dy (ev_pointing event) * pev_dy (ev_pointing event) < 25 ->
  (let '(st', event', ret) := circular_scroll_process st event in
   active st' = false /\ event' = event /\ ret = 0) /\
  (let '(st', event', ret) :=
     TrackpadScroll.trackpad_scroll_process tst event in
   TrackpadScroll.active st' = false /\ event' = event /\ ret = 0).
Proof.
  intros Hp Hm. unfold circular_scroll_process.
  unfold TrackpadScroll.trackpad_scroll_process.
  rewrite dead_zone_step, trackpad_dead_zone_step by assumption.
  cbn. repeat split.
Qed.

Lemma dead_zone_forces_inactive_witness :
  is_pointing (ev_type (motion 2 2)) = true /\
  2 * 2 + 2 * 2 < 25 /\
  (let '(st', event', ret) :=
     circular_scroll_process (mk_state true 1024) (motion 2 2) in
   active st' = false /\ event' = motion 2 2 /\ ret = 0) /\
  (let '(st', event', ret) :=
     TrackpadScroll.trackpad_scroll_process
       (TrackpadScroll.mk_state true 1024) (motion 2 2) in
   TrackpadScroll.active st' = false /\ event' = motion 2 2 /\ ret = 0).
Proof.
  assert (Hp : is_pointing (ev_type (motion 2 2)) = true) by reflexivity.
  assert (Hm : 2 * 2 + 2 * 2 < 25) by lia.
  split; [exact Hp|]. split; [exact Hm|].
  exact (dead_zone_forces_inactive (mk_state true 1024)
           (TrackpadScroll.mk_state true 1024) (motion 2 2) Hp Hm).
Defined.

(** C10: for every tracker state, a sample inside the dead zone leaves
    prev_angle as it was: only the active flag is cleared, in both
    processors. *)
Theorem dead_zone_keeps_prev_angle (st : circular_scroll_state)
    (tst : TrackpadScroll.trackpad_scroll_state) (event : zmk_input_event) :
  is_pointing (ev_type event) = true ->
  pev_dx (ev_pointing event) * pev_dx (ev_pointing event)
  + pev_dy (ev_pointing event) * pev_dy (ev_pointing event) < 25 ->
  prev_angle (fst (fst (circular_scroll_process st event))) = prev_angle st /\
  TrackpadScroll.prev_angle
    (fst (fst (TrackpadScroll.trackpad_scroll_process tst event)))
  = TrackpadScroll.prev_angle tst.
Proof.
  intros Hp Hm. unfold circular_scroll_process.
  unfold TrackpadScroll.trackpad_scroll_process.
  rewrite dead_zone_step, trackpad_dead_zone_step by assumption.
  split; reflexivity.
Qed.

Lemma dead_zone_keeps_prev_angle_witness :
  is_pointing (ev_type (motion 3 (-2))) = true /\
  3 * 3 + (-2) * (-2) < 25 /\
  prev_angle
    (fst (fst (circular_scroll_process (mk_state true 1024) (motion 3 (-2)))))
  = 1024 /\
  TrackpadScroll.prev_angle
    (fst (fst (TrackpadScroll.trackpad_scroll_process
                 (TrackpadScroll.mk_state true 3000) (motion 3 (-2)))))
  = 3000.
Proof.
  assert (Hp : is_pointing (ev_type (motion 3 (-2))) = true) by reflexivity.
  assert (Hm : 3 * 3 + (-2) * (-2) < 25) by lia.
  split; [exact Hp|]. split; [exact Hm|].
  exact (dead_zone_keeps_prev_angle (mk_state true 1024)
           (TrackpadScroll.mk_state true 3000) (motion 3 (-2)) Hp Hm).
Defined.

(** The activation branch, lines 81-85: a sample outside the dead zone
    that finds the tracker inactive. *)
Lemma activation_step (gain : Z) (st : circular_scroll_state)
    (event : zmk_input_event) :
  let dx := pev_dx (ev_pointing event) in
  let dy := pev_dy (ev_pointing event) in
  is_pointing (ev_type event) = true ->
  int16 dx -> int16 dy -> ~ (dx = -32768 /\ dy = -32768) ->
  25 <= dx * dx + dy * dy ->
  active st = false ->
  process_gain gain st event
  = (mk_state true (pseudo_angle dx dy), event, 0).
Proof.
  intros dx dy Hp Hx Hy Hne Hm Ha. unfold process_gain.
  rewrite Hp, Ha. cbn [negb]. fold dx dy.
  unfold int16 in Hx, Hy.
  rewrite !to_int16_small by lia.
  rewrite mag_sq_exact by (unfold int16; tauto).
  unfold dead_zone_sq.
  destruct (Z.ltb_spec (dx * dx + dy * dy) 25); [lia | reflexivity].
Qed.

(** The tracking branch, lines 88-111: a sample outside the dead zone that
    finds the tracker active. *)
Lemma tracking_step (gain : Z) (st : circular_scroll_state)
    (event : zmk_input_event) :
  let dx := pev_dx (ev_pointing event) in
  let dy := pev_dy (ev_pointing event) in
  let angle := pseudo_angle dx dy in
  let delta := angle_delta angle (prev_angle st) in
  is_pointing (ev_type event) = true ->
  int16 dx -> int16 dy -> ~ (dx = -32768 /\ dy = -32768) ->
  25 <= dx * dx + dy * dy ->
  active st = true ->
  process_gain gain st event
  = (mk_state true angle,
     mk_input_event (ev_type event)
       (mk_pointing_event 0 (to_int16 (scroll_value gain delta))
          ZMK_POINTING_EVENT_SCROLL),
     1).
Proof.
  intros dx dy angle delta Hp Hx Hy Hne Hm Ha. unfold process_gain.
  rewrite Hp, Ha. cbn [negb]. fold dx dy.
  unfold int16 in Hx, Hy.
  rewrite !to_int16_small by lia.
  rewrite mag_sq_exact by (unfold int16; tauto).
  unfold dead_zone_sq.
  destruct (Z.ltb_spec (dx * dx + dy * dy) 25); [lia | reflexivity].
Qed.

(** Every sample outside the dead zone other than (-32768, -32768)
    activates an inactive tracker without output. *)
Lemma activation_outside_overflow (st : circular_scroll_state) (dx dy : Z) :
  int16 dx -> int16 dy -> ~ (dx = -32768 /\ dy = -32768) ->
  25 <= dx * dx + dy * dy ->
  active st = false ->
  circular_scroll_process st (motion dx dy)
  = (mk_state true (pseudo_angle dx dy), motion dx dy, 0).
Proof.
  intros Hx Hy Hne Hm Ha.
  apply (activation_step 10 st (motion dx dy)); auto.
Qed.

(** C5 at the sample (-32768, -32768): the sum of the squares is 2^31, far
    outside the dead zone, and the tracker is inactive; the process
    function takes the dead-zone branch and the tracker stays inactive,
    where the claim has it active with the angle of the sample. *)
Theorem activation_missed_on_overflow :
  int16 (-32768) /\
  25 <= (-32768) * (-32768) + (-32768) * (-32768) /\
  active cs_state = false /\
  circular_scroll_process cs_state (motion (-32768) (-32768))
  = (mk_state false 0, motion (-32768) (-32768), 0).
Proof.
  unfold int16. repeat split; lia.
Qed.

(** The corrected delta of two angles of the circle is at most a half
    turn. *)
Lemma angle_delta_bounded (angle prev : Z) :
  0 <= angle <= 4096 -> 0 <= prev <= 4096 ->
  -2048 <= angle_delta angle prev <= 2048.
Proof.
  intros Ha Hp. unfold angle_delta.
  rewrite (to_int16_small angle), (to_int16_small prev) by lia.
  rewrite (to_int32_small (angle - prev)) by lia.
  rewrite (to_int16_small (angle - prev)) by lia.
  destruct (Z.gtb_spec (angle - prev) 2048).
  - rewrite to_int32_small, to_int16_small by lia. lia.
  - destruct (Z.ltb_spec (angle - prev) (-2048)).
    + rewrite to_int32_small, to_int16_small by lia. lia.
    + lia.
Qed.

(** On the circle the corrected delta is the raw difference, less a full
    turn above a half turn, plus a full turn below minus a half turn. *)
Lemma angle_delta_exact (angle prev : Z) :
  0 <= angle <= 4096 -> 0 <= prev <= 4096 ->
  angle_delta angle prev =
  if angle - prev >? 2048 then angle - prev - 4096
  else if angle - prev <? -2048 then angle - prev + 4096
  else angle - prev.
Proof.
  intros Ha Hp. unfold angle_delta.
  rewrite (to_int16_small angle), (to_int16_small prev) by lia.
  rewrite (to_int32_small (angle - prev)) by lia.
  rewrite (to_int16_small (angle - prev)) by lia.
  destruct (Z.gtb_spec (angle - prev) 2048).
  - rewrite to_int32_small, to_int16_small by lia. reflexivity.
  - destruct (Z.ltb_spec (angle - prev) (-2048)).
    + rewrite to_int32_small, to_int16_small by lia. reflexivity.
    + reflexivity.
Qed.

Lemma angle_delta_wraparound : angle_delta 100 4000 = 196.
Proof. reflexivity. Qed.

Lemma process_on_circle (gain : Z) (st : circular_scroll_state)
    (event : zmk_input_event) :
  angle_safe event -> on_circle st ->
  on_circle (fst (fst (process_gain gain st event))).
Proof.
  intros (Hx & Hy) Hst. unfold on_circle in *.
  set (dx := pev_dx (ev_pointing event)) in *.
  set (dy := pev_dy (ev_pointing event)) in *.
  assert (Hr : 0 <= pseudo_angle dx dy <= 4096).
  { rewrite pseudo_angle_ideal by (unfold int16 in *; lia).
    apply ideal_angle_range. }
  unfold process_gain. fold dx dy.
  destruct (negb (is_pointing (ev_type event))); [exact Hst|].
  unfold int16 in Hx. rewrite !to_int16_small by lia.
  destruct (mag_sq dx dy <? dead_zone_sq); [exact Hst|].
  destruct (negb (active st)); exact Hr.
Qed.

(** X15: from the initial state, and from any state on the circle, a
    sequence of samples whose dy is not -32768 keeps the stored angle on
    the circle [0, 4096]. *)
Lemma run_on_circle (gain : Z) (events : list zmk_input_event) :
  Forall angle_safe events ->
  forall st, on_circle st ->
             on_circle (fst (run (process_gain gain) st events)).
Proof.
  induction 1 as [|e rest He Hrest IH]; intros st Hst; [exact Hst|].
  cbn [run].
  pose proof (process_on_circle gain st e He Hst) as H1.
  destruct (process_gain gain st e) as [[st1 e1] r]. cbn [fst] in H1.
  specialize (IH st1 H1).
  destruct (run (process_gain gain) st1 rest) as [st2 out]. exact IH.
Qed.

(** X16: for every tracking transition whose sample has [dy] other than
    [-32768], from a state whose angle is on the circle, the corrected
    delta is at most a half turn. *)
Lemma tracking_delta_bounded (st : circular_scroll_state) (dx dy : Z) :
  int16 dx -> int16 dy -> -32768 < dy -> on_circle st ->
  -2048 <= angle_delta (pseudo_angle dx dy) (prev_angle st) <= 2048.
Proof.
  intros Hx Hy Hmin Hst. apply angle_delta_bounded; [|exact Hst].
  rewrite pseudo_angle_ideal by assumption. apply ideal_angle_range.
Qed.

(** C6 at the sample (10581, -32768): the tracker is active with
    prev_angle 0 after the sample (10, 0); the sample is outside the dead
    zone, its angle is 36864, and the corrected delta of this tracking
    transition is -24576, outside [-2048, 2048]; the scroll value is -240.
    The wraparound example of the claim holds: from prev_angle 4000 to
    angle 100 the corrected delta is 196. *)
Theorem delta_bound_broken_by_int16_min :
  fst (run circular_scroll_process cs_state [motion 10 0]) = mk_state true 0 /\
  int16 10581 /\ int16 (-32768) /\
  25 <= 10581 * 10581 + (-32768) * (-32768) /\
  pseudo_angle 10581 (-32768) = 36864 /\
  angle_delta (pseudo_angle 10581 (-32768)) 0 = -24576 /\
  ~ (-2048 <= angle_delta (pseudo_angle 10581 (-32768)) 0 <= 2048) /\
  circular_scroll_process (mk_state true 0) (motion 10581 (-32768))
  = (mk_state true 36864, scroll_event (-240), 1) /\
  angle_delta 100 4000 = 196.
Proof.
  unfold int16.
  change (pseudo_angle 10581 (-32768)) with 36864.
  change (angle_delta 36864 0) with (-24576).
  repeat split; lia.
Qed.

(** C7: from the inactive initial state, with gain numerator 10, the
    samples (10,0), (0,10), (-10,0) give: no output and the state active
    with prev_angle 0; then angle 1024, corrected delta 1024 and scroll
    value (1024*10)/1024 = 10; then angle 2048, corrected delta 1024 and
    scroll value 10 again. *)
Theorem steady_rotation_scenario :
  active cs_state = false /\
  circular_scroll_process cs_state (motion 10 0)
  = (mk_state true 0, motion 10 0, 0) /\
  pseudo_angle 0 10 = 1024 /\
  angle_delta 1024 0 = 1024 /\
  scroll_value 10 1024 = 10 /\
  circular_scroll_process (mk_state true 0) (motion 0 10)
  = (mk_state true 1024, scroll_event 10, 1) /\
  pseudo_angle (-10) 0 = 2048 /\
  angle_delta 2048 1024 = 1024 /\
  circular_scroll_process (mk_state true 1024) (motion (-10) 0)
  = (mk_state true 2048, scroll_event 10, 1) /\
  run circular_scroll_process cs_state
    [motion 10 0; motion 0 10; motion (-10) 0]
  = (mk_state true 2048,
     [(motion 10 0, 0); (scroll_event 10, 1); (scroll_event 10, 1)]).
Proof. repeat split. Qed.

End Tracker.

(** ** The two files against each other *)

Section Equivalence.

Import CircularScroll.

Lemma trackpad_mag_sq_eq (dx dy : Z) :
  TrackpadScroll.mag_sq dx dy = mag_sq dx dy.
Proof. unfold TrackpadScroll.mag_sq, mag_sq. reflexivity. Qed.

Lemma trackpad_angle_delta_eq (angle prev : Z) :
  TrackpadScroll.angle_delta angle prev = angle_delta angle prev.
Proof. unfold TrackpadScroll.angle_delta, angle_delta. reflexivity. Qed.

Lemma trackpad_scroll_value_eq (gain delta : Z) :
  TrackpadScroll.scroll_value gain delta = scroll_value gain delta.
Proof. unfold TrackpadScroll.scroll_value, scroll_value. reflexivity. Qed.

(** One call: with the same numerator the two functions take the same
    branch, leave the same event, return the same code and store the same
    fields. *)
Lemma process_gain_simulation (gain : Z) (st : circular_scroll_state)
    (event : zmk_input_event) :
  TrackpadScroll.process_gain gain (as_trackpad st) event
  = (as_trackpad (fst (fst (process_gain gain st event))),
     snd (fst (process_gain gain st event)),
     snd (process_gain gain st event)).
Proof.
  unfold TrackpadScroll.process_gain, process_gain.
  rewrite !trackpad_mag_sq_eq, !trackpad_angle_delta_eq,
    !trackpad_scroll_value_eq, !compute_pseudo_angle_eq.
  unfold TrackpadScroll.dead_zone_sq, dead_zone_sq.
  destruct st as [a p]. unfold as_trackpad.
  cbn [active prev_angle TrackpadScroll.active TrackpadScroll.prev_angle].
  destruct (negb (is_pointing (ev_type event))); [reflexivity|].
  destruct (mag_sq _ _ <? 25); [reflexivity|].
  destruct (negb a); cbn [fst snd active prev_angle]; reflexivity.
Qed.

Lemma run_simulation (gain : Z) (events : list zmk_input_event) :
  forall st : circular_scroll_state,
    run (TrackpadScroll.process_gain gain) (as_trackpad st) events
    = (as_trackpad (fst (run (process_gain gain) st events)),
       snd (run (process_gain gain) st events)).
Proof.
  induction events as [|e rest IH]; intros st; [reflexivity|].
  cbn [run]. rewrite process_gain_simulation.
  destruct (process_gain gain st e) as [[st1 e1] r]. cbn [fst snd].
  rewrite IH.
  destruct (run (process_gain gain) st1 rest) as [st2 out]. reflexivity.
Qed.

(** Every state of the trackpad file is the image of a state of the other
    file. *)
Lemma as_trackpad_onto (tst : TrackpadScroll.trackpad_scroll_state) :
  exists st, as_trackpad st = tst.
Proof.
  destruct tst as [a p]. exists (mk_state a p). reflexivity.
Qed.

(** The numerators do make a difference: a quarter turn scrolls by 10 in
    one file and by 1 in the other. *)
Lemma gain_is_observable :
  circular_scroll_process (mk_state true 0) (motion 0 10)
  = (mk_state true 1024, scroll_event 10, 1) /\
  TrackpadScroll.trackpad_scroll_process
    (TrackpadScroll.mk_state true 0) (motion 0 10)
  = (TrackpadScroll.mk_state true 1024, scroll_event 1, 1).
Proof. split; reflexivity. Qed.

(** C9: the two files implement the same logic apart from the gain
    numerator: the two angle estimators are equal on every input; with
    the same numerator, from corresponding states and on every sequence of
    events, the two process functions go through corresponding states and
    leave the same events and return codes; and each file's function is
    that common function at its numerator, 10 and 1. *)
Theorem two_files_same_logic :
  (forall dx dy : Z,
      pseudo_angle dx dy = TrackpadScroll.compute_pseudo_angle dx dy) /\
  (forall (gain : Z) (st : circular_scroll_state)
          (events : list zmk_input_event),
      run (TrackpadScroll.process_gain gain) (as_trackpad st) events
      = (as_trackpad (fst (run (process_gain gain) st events)),
         snd (run (process_gain gain) st events))) /\
  (forall tst : TrackpadScroll.trackpad_scroll_state,
      exists st, as_trackpad st = tst) /\
  as_trackpad cs_state = TrackpadScroll.tp_state /\
  circular_scroll_process = process_gain 10 /\
  TrackpadScroll.trackpad_scroll_process = TrackpadScroll.process_gain 1.
Proof.
  split; [intros dx dy; symmetry; apply compute_pseudo_angle_eq|].
  split; [intros gain st events; apply run_simulation|].
  split; [exact as_trackpad_onto|].
  repeat split.
Qed.

End Equivalence.

(** ** Overflow *)

Section Overflow.

Import CircularScroll.

Lemma need_ok (s : Checked.step) (fits : Z -> bool) (z : Z) :
  fits z = true -> Checked.need s fits z = Checked.Ok z.
Proof. intros H. unfold Checked.need. rewrite H. reflexivity. Qed.

Lemma need_inv (s : Checked.step) (fits : Z -> bool) (z : Z) (B : Type)
    (k : Z -> Checked.checked B) (b : B) :
  Checked.bind (Checked.need s fits z) k = Checked.Ok b ->
  fits z = true /\ k z = Checked.Ok b.
Proof.
  unfold Checked.need. destruct (fits z); cbn; [auto | discriminate].
Qed.

Lemma need_inv_last (s : Checked.step) (fits : Z -> bool) (z r : Z) :
  Checked.need s fits z = Checked.Ok r -> fits z = true /\ z = r.
Proof.
  unfold Checked.need. destruct (fits z); [|discriminate].
  intros H. injection H as ->. auto.
Qed.

Lemma bind_inv (A B : Type) (c : Checked.checked A)
    (k : A -> Checked.checked B) (b : B) :
  Checked.bind c k = Checked.Ok b ->
  exists a, c = Checked.Ok a /\ k a = Checked.Ok b.
Proof.
  destruct c as [a|s]; cbn; [eauto | discriminate].
Qed.

(** Peel the checked steps off a hypothesis, keeping the range facts. *)
Ltac peel H :=
  repeat match type of H with
    | Checked.bind (Checked.need _ _ _) _ = Checked.Ok _ =>
        let F := fresh "Hfit" in
        apply need_inv in H; destruct H as [F H]
    end.

Ltac ranges :=
  repeat match goal with
    | H : fits_int16 _ = true |- _ => apply fits_int16_iff in H
    | H : fits_uint16 _ = true |- _ => apply fits_uint16_iff in H
    | H : fits_int32 _ = true |- _ => apply fits_int32_iff in H
    | H : fits_uint32 _ = true |- _ => apply fits_uint32_iff in H
    end.

(** *** The checked functions agree with the C functions

    When no step leaves its type, the checked computation and the
    computation with wrap-around have the same result. *)

Lemma checked_pseudo_angle_sound (dx dy a : Z) :
  Checked.pseudo_angle dx dy = Checked.Ok a -> pseudo_angle dx dy = a.
Proof.
  unfold Checked.pseudo_angle, pseudo_angle. intros H. peel H. ranges.
  rewrite (to_int16_small (Z.abs dx)), (to_int16_small (Z.abs dy)) by lia.
  rewrite (to_int32_small (Z.abs dx + Z.abs dy)) by lia.
  rewrite (to_uint16_small (Z.abs dx + Z.abs dy)) by lia.
  destruct (Z.abs dx + Z.abs dy =? 0); [congruence|].
  peel H. ranges.
  rewrite (to_uint32_small (Z.abs dy)) by lia.
  rewrite (to_uint32_small (Z.abs dy * 1024)) by lia.
  rewrite (to_uint32_small (Z.abs dx + Z.abs dy)) by lia.
  set (ratio := Z.abs dy * 1024 / (Z.abs dx + Z.abs dy)) in *.
  rewrite (to_uint16_small ratio) by lia.
  destruct ((dx >=? 0) && (dy >=? 0)); [congruence|].
  destruct ((dx <? 0) && (dy >=? 0)); [|destruct ((dx <? 0) && (dy <? 0))];
    peel H; apply need_inv_last in H; destruct H as [Hlast <-]; ranges;
    rewrite ?(to_uint32_small ratio) by lia;
    rewrite ?(to_uint32_small (1024 - ratio)) by lia;
    rewrite to_uint32_small by lia;
    apply to_uint16_small; lia.
Qed.

Lemma checked_mag_sq_sound (dx dy m : Z) :
  Checked.mag_sq dx dy = Checked.Ok m -> mag_sq dx dy = m.
Proof.
  unfold Checked.mag_sq, mag_sq. intros H. peel H.
  apply need_inv_last in H. destruct H as [Hlast <-]. ranges.
  rewrite (to_int32_small (dx * dx)), (to_int32_small (dy * dy)) by lia.
  apply to_int32_small. lia.
Qed.

Lemma checked_angle_delta_sound (angle prev d : Z) :
  Checked.angle_delta angle prev = Checked.Ok d ->
  angle_delta angle prev = d.
Proof.
  unfold Checked.angle_delta, angle_delta. intros H. peel H. ranges.
  rewrite (to_int16_small angle), (to_int16_small prev) by lia.
  rewrite (to_int32_small (angle - prev)) by lia.
  rewrite (to_int16_small (angle - prev)) by lia.
  destruct (angle - prev >? 2048); [|destruct (angle - prev <? -2048)].
  - peel H. apply need_inv_last in H. destruct H as [Hlast <-]. ranges.
    rewrite to_int32_small by lia. apply to_int16_small. lia.
  - peel H. apply need_inv_last in H. destruct H as [Hlast <-]. ranges.
    rewrite to_int32_small by lia. apply to_int16_small. lia.
  - congruence.
Qed.

Lemma checked_scroll_value_sound (gain delta v : Z) :
  Checked.scroll_value gain delta = Checked.Ok v ->
  scroll_value gain delta = v.
Proof.
  unfold Checked.scroll_value, scroll_value. intros H. peel H.
  apply need_inv_last in H. destruct H as [Hlast <-]. ranges.
  rewrite (to_int32_small (delta * gain)) by lia.
  apply to_int32_small. lia.
Qed.

Lemma checked_process_sound (gain : Z) (st : circular_scroll_state)
    (event : zmk_input_event)
    (r : circular_scroll_state * zmk_input_event * Z) :
  Checked.process_gain gain st event = Checked.Ok r ->
  process_gain gain st event = r.
Proof.
  unfold Checked.process_gain, process_gain. intros H.
  destruct (negb (is_pointing (ev_type event))); [congruence|].
  peel H. ranges. rewrite !to_int16_small by lia.
  apply bind_inv in H. destruct H as (m & Hm & H).
  rewrite (checked_mag_sq_sound _ _ _ Hm).
  destruct (m <? dead_zone_sq); [congruence|].
  apply bind_inv in H. destruct H as (angle & Hangle & H).
  rewrite (checked_pseudo_angle_sound _ _ _ Hangle).
  destruct (negb (active st)); [congruence|].
  apply bind_inv in H. destruct H as (delta & Hdelta & H).
  rewrite (checked_angle_delta_sound _ _ _ Hdelta).
  apply bind_inv in H. destruct H as (v & Hv & H).
  rewrite (checked_scroll_value_sound _ _ _ Hv).
  peel H. ranges. rewrite to_int16_small by lia. congruence.
Qed.

(** *** No overflow away from the most negative value *)

Ltac step_ok :=
  match goal with
  | |- context [Checked.need ?s ?f ?z] =>
      rewrite (need_ok s f z)
        by (first [apply fits_int16_iff | apply fits_uint16_iff
                  | apply fits_int32_iff | apply fits_uint32_iff]; lia);
      cbn [Checked.bind]
  end.

Lemma checked_pseudo_angle_total (dx dy : Z) :
  int16 dx -> int16 dy -> -32768 < dx -> -32768 < dy ->
  Checked.pseudo_angle dx dy = Checked.Ok (pseudo_angle dx dy).
Proof.
  intros Hx Hy Hxmin Hymin.
  assert (E : exists a, Checked.pseudo_angle dx dy = Checked.Ok a).
  { unfold int16 in *. unfold Checked.pseudo_angle.
    do 4 step_ok.
    destruct (Z.abs dx + Z.abs dy =? 0) eqn:Hs; [eauto|].
    apply Z.eqb_neq in Hs.
    destruct (ratio_bounds (Z.abs dx) (Z.abs dy)) as [[Hr0 Hr1] _]; try lia.
    do 3 step_ok.
    set (ratio := Z.abs dy * 1024 / (Z.abs dx + Z.abs dy)) in *.
    destruct ((dx >=? 0) && (dy >=? 0)); [eauto|].
    destruct ((dx <? 0) && (dy >=? 0)); [|destruct ((dx <? 0) && (dy <? 0))];
      repeat step_ok; eauto. }
  destruct E as [a Ha]. rewrite Ha.
  apply checked_pseudo_angle_sound in Ha. congruence.
Qed.

Lemma checked_mag_sq_total (dx dy : Z) :
  int16 dx -> int16 dy -> ~ (dx = -32768 /\ dy = -32768) ->
  Checked.mag_sq dx dy = Checked.Ok (dx * dx + dy * dy).
Proof.
  unfold int16. intros Hx Hy Hne. unfold Checked.mag_sq.
  assert (0 <= dx * dx <= 1073741824) by nia.
  assert (0 <= dy * dy <= 1073741824) by nia.
  assert (dx <> -32768 -> dx * dx <= 1073676289) by nia.
  assert (dy <> -32768 -> dy * dy <= 1073676289) by nia.
  do 2 step_ok. apply need_ok. apply fits_int32_iff. lia.
Qed.

Lemma checked_angle_delta_total (angle prev : Z) :
  0 <= angle <= 4096 -> 0 <= prev <= 4096 ->
  Checked.angle_delta angle prev = Checked.Ok (angle_delta angle prev).
Proof.
  intros Ha Hp.
  assert (E : exists d, Checked.angle_delta angle prev = Checked.Ok d).
  { unfold Checked.angle_delta. do 4 step_ok.
    destruct (Z.gtb_spec (angle - prev) 2048);
      [|destruct (Z.ltb_spec (angle - prev) (-2048))];
      repeat step_ok; eauto. }
  destruct E as [d Hd]. rewrite Hd.
  apply checked_angle_delta_sound in Hd. congruence.
Qed.

Lemma checked_scroll_value_total (gain delta : Z) :
  -16383 <= gain <= 16383 -> -2048 <= delta <= 2048 ->
  Checked.scroll_value gain delta = Checked.Ok (scroll_value gain delta) /\
  -32767 <= scroll_value gain delta <= 32767.
Proof.
  intros Hg Hd.
  assert (Hm : -33552384 <= delta * gain <= 33552384) by nia.
  assert (Hq : -32766 <= Z.quot (delta * gain) 1024 <= 32766).
  { split.
    - change (-32766) with (Z.quot (-33552384) 1024).
      apply Z.quot_le_mono; lia.
    - change 32766 with (Z.quot 33552384 1024).
      apply Z.quot_le_mono; lia. }
  assert (E : Checked.scroll_value gain delta
              = Checked.Ok (Z.quot (delta * gain) 1024)).
  { unfold Checked.scroll_value. step_ok. apply need_ok.
    apply fits_int32_iff. lia. }
  pose proof (checked_scroll_value_sound _ _ _ E) as Hs.
  rewrite Hs. split; [exact E | lia].
Qed.

(** X14: for every int16 sample with both coordinates other than
    [-32768], from every state whose angle is on the circle and for every
    numerator up to 16383 in absolute value (10 and 1 among them), no
    arithmetic step of the process function leaves its type, and the
    function returns what the C function returns. *)
Lemma checked_process_total (gain : Z) (st : circular_scroll_state)
    (event : zmk_input_event) :
  -16383 <= gain <= 16383 -> overflow_safe event -> on_circle st ->
  Checked.process_gain gain st event
  = Checked.Ok (process_gain gain st event).
Proof.
  intros Hg (Hx & Hy) Hst.
  assert (E : exists r,
             Checked.process_gain gain st event = Checked.Ok r).
  { unfold Checked.process_gain.
    set (dx := pev_dx (ev_pointing event)) in *.
    set (dy := pev_dy (ev_pointing event)) in *.
    destruct (negb (is_pointing (ev_type event))); [eauto|].
    do 2 step_ok.
    rewrite checked_mag_sq_total by (unfold int16; lia).
    cbn [Checked.bind].
    destruct (dx * dx + dy * dy <? dead_zone_sq); [eauto|].
    rewrite checked_pseudo_angle_total by (unfold int16; lia).
    cbn [Checked.bind].
    destruct (negb (active st)); [eauto|].
    assert (Hangle : 0 <= pseudo_angle dx dy <= 4096).
    { rewrite pseudo_angle_ideal by (unfold int16; lia).
      apply ideal_angle_range. }
    rewrite checked_angle_delta_total by (assumption || exact Hst).
    cbn [Checked.bind].
    pose proof (angle_delta_bounded _ _ Hangle Hst) as Hdelta.
    destruct (checked_scroll_value_total gain _ Hg Hdelta) as [Hv Hvr].
    rewrite Hv. cbn [Checked.bind]. step_ok. eauto. }
  destruct E as [r Hr]. rewrite Hr.
  apply checked_process_sound in Hr. congruence.
Qed.

(** C2 at the samples (-32768, -32768) and (0, -32768).  At the first the
    sum of the squares is 2^31 and does not fit the 32-bit [int] of line
    71: the stored [mag_sq] is negative.  At the second the absolute value
    32768 does not fit the [int16_t] [ay] of line 38: [ay] is negative,
    the ratio is 64512 instead of at most 1024, and the angle is 5120.
    The claim has no step overflow on any int16 pair. *)
Theorem overflow_at_int16_min :
  int16 (-32768) /\ int16 0 /\
  Checked.circular_scroll_process cs_state (motion (-32768) (-32768))
  = Checked.Overflow Checked.StepMagSq /\
  mag_sq (-32768) (-32768) = -2147483648 /\
  Checked.circular_scroll_process cs_state (motion 0 (-32768))
  = Checked.Overflow Checked.StepAbs /\
  Checked.pseudo_angle 0 (-32768) = Checked.Overflow Checked.StepAbs /\
  to_int16 (Z.abs (-32768)) = -32768 /\
  pseudo_angle 0 (-32768) = 5120.
Proof.
  unfold int16. repeat split; lia.
Qed.

End Overflow.

(** ** The geometry of the estimator *)

Section Geometry.

Import CircularScroll.

Lemma ideal_angle_scale (k dx dy : Z) :
  0 < k -> ideal_angle (k * dx) (k * dy) = ideal_angle dx dy.
Proof.
  intros Hk. unfold ideal_angle.
  rewrite !Z.abs_mul, (Z.abs_eq k) by lia.
  rewrite <- Z.mul_add_distr_l.
  assert (Hx1 : (k * dx >=? 0) = (dx >=? 0)).
  { destruct (Z.geb_spec (k * dx) 0), (Z.geb_spec dx 0); try reflexivity; nia. }
  assert (Hy1 : (k * dy >=? 0) = (dy >=? 0)).
  { destruct (Z.geb_spec (k * dy) 0), (Z.geb_spec dy 0); try reflexivity; nia. }
  assert (Hx2 : (k * dx <? 0) = (dx <? 0)).
  { destruct (Z.ltb_spec (k * dx) 0), (Z.ltb_spec dx 0); try reflexivity; nia. }
  assert (Hy2 : (k * dy <? 0) = (dy <? 0)).
  { destruct (Z.ltb_spec (k * dy) 0), (Z.ltb_spec dy 0); try reflexivity; nia. }
  rewrite Hx1, Hy1, Hx2, Hy2.
  destruct (Z.eqb_spec (Z.abs dx + Z.abs dy) 0) as [E|E].
  - rewrite E, Z.mul_0_r. reflexivity.
  - destruct (Z.eqb_spec (k * (Z.abs dx + Z.abs dy)) 0) as [E'|_]; [nia|].
    rewrite <- Z.mul_assoc, Z.div_mul_cancel_l by lia. reflexivity.
Qed.

(** X1: the angle depends on the direction of the sample only: scaling
    both coordinates by the same positive factor leaves it unchanged. *)
Theorem pseudo_angle_scale_invariant (k dx dy : Z) :
  0 < k ->
  int16 dx -> -32768 < dy <= 32767 ->
  int16 (k * dx) -> -32768 < k * dy <= 32767 ->
  pseudo_angle (k * dx) (k * dy) = pseudo_angle dx dy.
Proof.
  intros Hk Hx Hy Hkx Hky.
  rewrite !pseudo_angle_ideal by (unfold int16 in *; lia).
  apply ideal_angle_scale. exact Hk.
Qed.

Lemma pseudo_angle_scale_invariant_witness :
  0 < 100 /\ int16 3 /\ -32768 < -7 <= 32767 /\
  int16 (100 * 3) /\ -32768 < 100 * -7 <= 32767 /\
  pseudo_angle (100 * 3) (100 * -7) = pseudo_angle 3 (-7).
Proof.
  assert (Hk : 0 < 100) by lia.
  assert (Hx : int16 3) by (unfold int16; lia).
  assert (Hy : -32768 < -7 <= 32767) by lia.
  assert (Hkx : int16 (100 * 3)) by (unfold int16; lia).
  assert (Hky : -32768 < 100 * -7 <= 32767) by lia.
  repeat (split; [assumption|]).
  exact (pseudo_angle_scale_invariant 100 3 (-7) Hk Hx Hy Hkx Hky).
Defined.

(** The ratio at the two ends of a quadrant. *)
Lemma ratio_on_x_axis (ax : Z) : 0 * 1024 / (ax + 0) = 0.
Proof. reflexivity. Qed.

Lemma ratio_on_y_axis (ay : Z) : 0 < ay -> ay * 1024 / (0 + ay) = 1024.
Proof.
  intros H. rewrite Z.add_0_l, Z.mul_comm. apply Z.div_mul. lia.
Qed.

(** X2: opposite directions are a half turn apart: for every sample other
    than the origin, the angle of (-dx, -dy) differs from the angle of
    (dx, dy) by 2048 modulo 4096. *)
Theorem pseudo_angle_opposite (dx dy : Z) :
  -32768 < dx <= 32767 -> -32768 < dy <= 32767 ->
  ~ (dx = 0 /\ dy = 0) ->
  (pseudo_angle (- dx) (- dy) - pseudo_angle dx dy) mod 4096 = 2048.
Proof.
  intros Hx Hy Hne.
  rewrite !pseudo_angle_ideal by (unfold int16; lia).
  unfold ideal_angle. rewrite !Z.abs_opp.
  destruct (Z.eqb_spec (Z.abs dx + Z.abs dy) 0) as [E|E]; [lia|].
  destruct (ratio_bounds (Z.abs dx) (Z.abs dy)) as [[Hr0 Hr1] _]; try lia.
  assert (Hax : dy = 0 -> Z.abs dy * 1024 / (Z.abs dx + Z.abs dy) = 0).
  { intros ->. apply ratio_on_x_axis. }
  assert (Hay : dx = 0 -> Z.abs dy * 1024 / (Z.abs dx + Z.abs dy) = 1024).
  { intros ->. apply ratio_on_y_axis. lia. }
  set (ratio := Z.abs dy * 1024 / (Z.abs dx + Z.abs dy)) in *.
  assert (D : forall a b, a - b = 2048 \/ a - b = -2048 ->
                          (a - b) mod 4096 = 2048).
  { intros a b [-> | ->]; reflexivity. }
  destruct (Z.geb_spec dx 0), (Z.geb_spec dy 0),
    (Z.ltb_spec dx 0), (Z.ltb_spec dy 0),
    (Z.geb_spec (- dx) 0), (Z.geb_spec (- dy) 0),
    (Z.ltb_spec (- dx) 0), (Z.ltb_spec (- dy) 0);
    cbn [andb]; try lia; apply D;
    try (assert (dx = 0) by lia); try (assert (dy = 0) by lia);
    try specialize (Hax ltac:(assumption));
    try specialize (Hay ltac:(assumption)); lia.
Qed.

Lemma pseudo_angle_opposite_witness :
  -32768 < 3 <= 32767 /\ -32768 < -7 <= 32767 /\
  ~ (3 = 0 /\ -7 = 0) /\
  (pseudo_angle (- 3) (- -7) - pseudo_angle 3 (-7)) mod 4096 = 2048.
Proof.
  assert (Hx : -32768 < 3 <= 32767) by lia.
  assert (Hy : -32768 < -7 <= 32767) by lia.
  assert (Hne : ~ (3 = 0 /\ -7 = 0)) by lia.
  repeat (split; [assumption|]).
  exact (pseudo_angle_opposite 3 (-7) Hx Hy Hne).
Defined.

(** X3: inside the first quadrant the angle follows the direction: it
    does not decrease when dy grows and does not increase when dx
    grows. *)
Theorem pseudo_angle_monotone_first_quadrant (dx dx' dy dy' : Z) :
  0 <= dx <= dx' -> dx' <= 32767 ->
  0 <= dy <= dy' -> dy' <= 32767 ->
  pseudo_angle dx dy <= pseudo_angle dx dy' /\
  pseudo_angle dx' dy <= pseudo_angle dx dy.
Proof.
  intros Hx Hx' Hy Hy'.
  rewrite !pseudo_angle_ideal by (unfold int16; lia).
  unfold ideal_angle. rewrite !Z.abs_eq by lia.
  destruct (Z.geb_spec dx 0); [|lia]. destruct (Z.geb_spec dx' 0); [|lia].
  destruct (Z.geb_spec dy 0); [|lia]. destruct (Z.geb_spec dy' 0); [|lia].
  cbn [andb]. split.
  - destruct (Z.eqb_spec (dx + dy) 0) as [E|E];
      destruct (Z.eqb_spec (dx + dy') 0) as [E'|E']; try lia.
    + apply Z.div_pos; lia.
    + destruct (ratio_bounds dx dy) as [[Hr0 Hr1] _]; try lia.
      apply Z.div_le_lower_bound; [lia|].
      pose proof (Z.mul_div_le (dy * 1024) (dx + dy) ltac:(lia)) as Hq.
      set (q := dy * 1024 / (dx + dy)) in *. nia.
  - destruct (Z.eqb_spec (dx' + dy) 0) as [E|E];
      destruct (Z.eqb_spec (dx + dy) 0) as [E'|E']; try lia.
    + assert (Hdy : dy = 0) by lia. rewrite Hdy. cbn [Z.mul].
      rewrite Z.div_0_l; lia.
    + apply Z.div_le_compat_l; lia.
Qed.

Lemma pseudo_angle_monotone_first_quadrant_witness :
  0 <= 3 <= 30 /\ 30 <= 32767 /\ 0 <= 4 <= 40 /\ 40 <= 32767 /\
  pseudo_angle 3 4 <= pseudo_angle 3 40 /\
  pseudo_angle 30 4 <= pseudo_angle 3 4.
Proof.
  assert (Hx : 0 <= 3 <= 30) by lia.
  assert (Hx' : 30 <= 32767) by lia.
  assert (Hy : 0 <= 4 <= 40) by lia.
  assert (Hy' : 40 <= 32767) by lia.
  do 4 (split; [assumption|]).
  exact (pseudo_angle_monotone_first_quadrant 3 30 4 40 Hx Hx' Hy Hy').
Defined.

End Geometry.

(** ** The corrected delta and the scroll value *)

Section Delta.

Import CircularScroll.

(** X4: on the circle the corrected delta is the representative of the
    difference of the two angles modulo 4096 that lies within a half
    turn of zero. *)
Theorem angle_delta_congruent (angle prev : Z) :
  0 <= angle <= 4096 -> 0 <= prev <= 4096 ->
  (angle_delta angle prev - (angle - prev)) mod 4096 = 0 /\
  -2048 <= angle_delta angle prev <= 2048.
Proof.
  intros Ha Hp. split; [|apply angle_delta_bounded; assumption].
  rewrite angle_delta_exact by assumption.
  destruct (angle - prev >? 2048); [|destruct (angle - prev <? -2048)].
  - replace (angle - prev - 4096 - (angle - prev)) with (-4096) by lia.
    reflexivity.
  - replace (angle - prev + 4096 - (angle - prev)) with 4096 by lia.
    reflexivity.
  - rewrite Z.sub_diag. reflexivity.
Qed.

Lemma angle_delta_congruent_witness :
  0 <= 100 <= 4096 /\ 0 <= 4000 <= 4096 /\
  (angle_delta 100 4000 - (100 - 4000)) mod 4096 = 0 /\
  -2048 <= angle_delta 100 4000 <= 2048.
Proof.
  assert (Ha : 0 <= 100 <= 4096) by lia.
  assert (Hp : 0 <= 4000 <= 4096) by lia.
  do 2 (split; [assumption|]).
  exact (angle_delta_congruent 100 4000 Ha Hp).
Defined.

(** Swapping the two angles negates the corrected delta. *)
Lemma angle_delta_antisym (angle prev : Z) :
  0 <= angle <= 4096 -> 0 <= prev <= 4096 ->
  angle_delta prev angle = - angle_delta angle prev.
Proof.
  intros Ha Hp. rewrite !angle_delta_exact by assumption.
  destruct (Z.gtb_spec (prev - angle) 2048),
    (Z.ltb_spec (prev - angle) (-2048)),
    (Z.gtb_spec (angle - prev) 2048),
    (Z.ltb_spec (angle - prev) (-2048)); lia.
Qed.

(** Within these bounds neither the product nor the quotient of line 100
    leaves [int]. *)
Lemma scroll_value_exact (gain delta : Z) :
  -16383 <= gain <= 16383 -> -2048 <= delta <= 2048 ->
  scroll_value gain delta = Z.quot (delta * gain) 1024.
Proof.
  intros Hg Hd. unfold scroll_value.
  assert (Hm : -33552384 <= delta * gain <= 33552384) by nia.
  rewrite (to_int32_small (delta * gain)) by lia.
  apply to_int32_small.
  Z.to_euclidean_division_equations. lia.
Qed.

(** X5: turning back by the same angle scrolls back by the same amount:
    with the two angles swapped the scroll value changes sign, the
    division truncating toward zero in both directions. *)
Theorem reverse_rotation_negates_scroll (gain angle prev : Z) :
  -16383 <= gain <= 16383 ->
  0 <= angle <= 4096 -> 0 <= prev <= 4096 ->
  scroll_value gain (angle_delta prev angle)
  = - scroll_value gain (angle_delta angle prev).
Proof.
  intros Hg Ha Hp.
  pose proof (angle_delta_bounded angle prev Ha Hp) as Hb.
  rewrite angle_delta_antisym by assumption.
  rewrite !scroll_value_exact by lia.
  rewrite Z.mul_opp_l. apply Z.quot_opp_l. lia.
Qed.

Lemma reverse_rotation_negates_scroll_witness :
  -16383 <= 10 <= 16383 /\ 0 <= 1500 <= 4096 /\ 0 <= 200 <= 4096 /\
  scroll_value 10 (angle_delta 200 1500)
  = - scroll_value 10 (angle_delta 1500 200).
Proof.
  assert (Hg : -16383 <= 10 <= 16383) by lia.
  assert (Ha : 0 <= 1500 <= 4096) by lia.
  assert (Hp : 0 <= 200 <= 4096) by lia.
  do 3 (split; [assumption|]).
  exact (reverse_rotation_negates_scroll 10 1500 200 Hg Ha Hp).
Defined.

(** The delta of an angle with itself is zero, whatever the angle. *)
Lemma angle_delta_same (angle : Z) : angle_delta angle angle = 0.
Proof.
  unfold angle_delta. rewrite Z.sub_diag. reflexivity.
Qed.

Lemma scroll_value_zero (gain : Z) : scroll_value gain 0 = 0.
Proof.
  unfold scroll_value. rewrite Z.mul_0_l. reflexivity.
Qed.

End Delta.

(** ** What the processors emit *)

Section Behaviour.

Import CircularScroll.

(** An event of another type is handed back as it came, lines 62-64. *)
Lemma non_pointing_step (gain : Z) (st : circular_scroll_state)
    (event : zmk_input_event) :
  is_pointing (ev_type event) = false ->
  process_gain gain st event = (st, event, 0).
Proof.
  intros H. unfold process_gain. rewrite H. reflexivity.
Qed.

(** X6: the returned code tells whether the event was rewritten.  With
    code 0 the event is untouched.  Code 1 is returned only for a
    pointing event that found the tracker active; the tracker stays
    active, the event keeps its input type, its dx is zero and its
    pointing type is scroll.  No other code is returned. *)
Theorem process_output_shape (gain : Z) (st : circular_scroll_state)
    (event : zmk_input_event) :
  let '(st', event', ret) := process_gain gain st event in
  (ret = 0 /\ event' = event) \/
  (ret = 1 /\ active st = true /\ active st' = true /\
   is_pointing (ev_type event) = true /\
   ev_type event' = ev_type event /\
   pev_dx (ev_pointing event') = 0 /\
   pev_type (ev_pointing event') = ZMK_POINTING_EVENT_SCROLL).
Proof.
  unfold process_gain.
  destruct (is_pointing (ev_type event)) eqn:Hp; cbn [negb];
    [|left; split; reflexivity].
  destruct (mag_sq _ _ <? dead_zone_sq); [left; split; reflexivity|].
  destruct (active st) eqn:Ha; cbn [negb]; [|left; split; reflexivity].
  right. cbn [active ev_type ev_pointing pev_dx pev_type].
  repeat split; assumption.
Qed.

(** An inactive tracker never rewrites the event. *)
Lemma inactive_step_silent (gain : Z) (st : circular_scroll_state)
    (event : zmk_input_event) :
  active st = false ->
  snd (fst (process_gain gain st event)) = event /\
  snd (process_gain gain st event) = 0.
Proof.
  intros Ha. unfold process_gain. rewrite Ha. cbn [negb].
  destruct (negb (is_pointing (ev_type event))); [split; reflexivity|].
  destruct (mag_sq _ _ <? dead_zone_sq); split; reflexivity.
Qed.

Lemma trackpad_inactive_step_silent (gain : Z)
    (st : TrackpadScroll.trackpad_scroll_state) (event : zmk_input_event) :
  TrackpadScroll.active st = false ->
  snd (fst (TrackpadScroll.process_gain gain st event)) = event /\
  snd (TrackpadScroll.process_gain gain st event) = 0.
Proof.
  intros Ha. unfold TrackpadScroll.process_gain. rewrite Ha. cbn [negb].
  destruct (negb (is_pointing (ev_type event))); [split; reflexivity|].
  destruct (TrackpadScroll.mag_sq _ _ <? TrackpadScroll.dead_zone_sq);
    split; reflexivity.
Qed.

(** X7: after the init function, whatever the state was before, the init
    function has returned 0 and the first event of any kind is handed
    back untouched with code 0; so in both files. *)
Theorem init_suppresses_first_event (st : circular_scroll_state)
    (tst : TrackpadScroll.trackpad_scroll_state) (event : zmk_input_event) :
  (snd (circular_scroll_init st) = 0 /\
   snd (fst (circular_scroll_process (fst (circular_scroll_init st)) event))
   = event /\
   snd (circular_scroll_process (fst (circular_scroll_init st)) event) = 0) /\
  (snd (TrackpadScroll.trackpad_scroll_init tst) = 0 /\
   snd (fst (TrackpadScroll.trackpad_scroll_process
               (fst (TrackpadScroll.trackpad_scroll_init tst)) event))
   = event /\
   snd (TrackpadScroll.trackpad_scroll_process
          (fst (TrackpadScroll.trackpad_scroll_init tst)) event) = 0).
Proof.
  split; (split; [reflexivity|]).
  - apply inactive_step_silent. reflexivity.
  - apply trackpad_inactive_step_silent. reflexivity.
Qed.

(** X8: a pause restarts the baseline: after a sample inside the dead
    zone the next event, whatever it is, is handed back untouched with
    code 0, also when the tracker was active before the pause. *)
Theorem dead_zone_restarts_baseline (gain : Z) (st : circular_scroll_state)
    (pause next : zmk_input_event) :
  is_pointing (ev_type pause) = true ->
  pev_dx (ev_pointing pause) * pev_dx (ev_pointing pause)
  + pev_dy (ev_pointing pause) * pev_dy (ev_pointing pause) < 25 ->
  snd (run (process_gain gain) st [pause; next]) = [(pause, 0); (next, 0)].
Proof.
  intros Hp Hm. cbn [run].
  rewrite dead_zone_step by assumption.
  destruct (inactive_step_silent gain (mk_state false (prev_angle st)) next)
    as [He Hr]; [reflexivity|].
  destruct (process_gain gain (mk_state false (prev_angle st)) next)
    as [[st2 e2] r2].
  cbn [fst snd] in *. subst. reflexivity.
Qed.

Lemma dead_zone_restarts_baseline_witness :
  is_pointing (ev_type (motion 1 (-2))) = true /\
  1 * 1 + (-2) * (-2) < 25 /\
  snd (run (process_gain 10) (mk_state true 1024)
         [motion 1 (-2); motion 0 100])
  = [(motion 1 (-2), 0); (motion 0 100, 0)].
Proof.
  assert (Hp : is_pointing (ev_type (motion 1 (-2))) = true) by reflexivity.
  assert (Hm : 1 * 1 + (-2) * (-2) < 25) by lia.
  split; [exact Hp|]. split; [exact Hm|].
  exact (dead_zone_restarts_baseline 10 (mk_state true 1024)
           (motion 1 (-2)) (motion 0 100) Hp Hm).
Defined.

(** X9: the tracker remembers the last sample only: after a pointing
    sample outside the dead zone, other than (-32768, -32768), the
    tracker is active and holds the angle of that sample, whatever the
    state was before. *)
Theorem sample_determines_state (gain : Z) (st : circular_scroll_state)
    (event : zmk_input_event) :
  let dx := pev_dx (ev_pointing event) in
  let dy := pev_dy (ev_pointing event) in
  is_pointing (ev_type event) = true ->
  int16 dx -> int16 dy -> ~ (dx = -32768 /\ dy = -32768) ->
  25 <= dx * dx + dy * dy ->
  fst (fst (process_gain gain st event))
  = mk_state true (pseudo_angle dx dy).
Proof.
  intros dx dy Hp Hx Hy Hne Hm.
  destruct (active st) eqn:Ha.
  - rewrite tracking_step by assumption. reflexivity.
  - rewrite activation_step by assumption. reflexivity.
Qed.

Lemma sample_determines_state_witness :
  is_pointing (ev_type (motion (-32768) 7)) = true /\
  int16 (-32768) /\ int16 7 /\ ~ (-32768 = -32768 /\ 7 = -32768) /\
  25 <= (-32768) * (-32768) + 7 * 7 /\
  fst (fst (process_gain 10 (mk_state true 3000) (motion (-32768) 7)))
  = mk_state true (pseudo_angle (-32768) 7).
Proof.
  assert (Hp : is_pointing (ev_type (motion (-32768) 7)) = true)
    by reflexivity.
  assert (Hx : int16 (-32768)) by (unfold int16; lia).
  assert (Hy : int16 7) by (unfold int16; lia).
  assert (Hne : ~ (-32768 = -32768 /\ 7 = -32768)) by lia.
  assert (Hm : 25 <= (-32768) * (-32768) + 7 * 7) by lia.
  split; [exact Hp|]. split; [exact Hx|]. split; [exact Hy|].
  split; [exact Hne|]. split; [exact Hm|].
  exact (sample_determines_state 10 (mk_state true 3000)
           (motion (-32768) 7) Hp Hx Hy Hne Hm).
Defined.

(** X10: moving on in the same direction scrolls by zero: when a sample
    outside the dead zone is followed by a positive multiple of itself,
    the second event is rewritten into a scroll event of amount 0 with
    code 1, from every state and for every numerator. *)
Theorem same_direction_scrolls_zero (gain : Z) (st : circular_scroll_state)
    (k dx dy : Z) :
  0 < k ->
  int16 dx -> -32768 < dy <= 32767 ->
  int16 (k * dx) -> -32768 < k * dy <= 32767 ->
  25 <= dx * dx + dy * dy ->
  exists o1,
    run (process_gain gain) st [motion dx dy; motion (k * dx) (k * dy)]
    = (mk_state true (pseudo_angle dx dy), [o1; (scroll_event 0, 1)]).
Proof.
  intros Hk Hx Hy Hkx Hky Hm.
  assert (Hy16 : int16 dy) by (unfold int16; lia).
  assert (Hky16 : int16 (k * dy)) by (unfold int16; lia).
  assert (H1 : fst (fst (process_gain gain st (motion dx dy)))
               = mk_state true (pseudo_angle dx dy)).
  { destruct (active st) eqn:Ha.
    - rewrite (tracking_step gain st (motion dx dy));
        try assumption; try reflexivity. cbn. lia.
    - rewrite (activation_step gain st (motion dx dy));
        try assumption; try reflexivity. cbn. lia. }
  assert (Hs : pseudo_angle (k * dx) (k * dy) = pseudo_angle dx dy).
  { rewrite !pseudo_angle_ideal by (assumption || lia).
    apply ideal_angle_scale. exact Hk. }
  assert (H2 : process_gain gain (mk_state true (pseudo_angle dx dy))
                 (motion (k * dx) (k * dy))
               = (mk_state true (pseudo_angle dx dy), scroll_event 0, 1)).
  { rewrite (tracking_step gain (mk_state true (pseudo_angle dx dy))
               (motion (k * dx) (k * dy)));
      try assumption; try reflexivity.
    - cbn [motion ev_pointing ev_type pev_dx pev_dy prev_angle].
      rewrite Hs, angle_delta_same, scroll_value_zero. reflexivity.
    - cbn. lia.
    - cbn [motion ev_pointing pev_dx pev_dy]. nia. }
  cbn [run].
  destruct (process_gain gain st (motion dx dy)) as [[st1 e1] r1].
  cbn [fst] in H1. subst st1. rewrite H2.
  exists (e1, r1). reflexivity.
Qed.

Lemma same_direction_scrolls_zero_witness :
  0 < 3 /\ int16 6 /\ -32768 < -8 <= 32767 /\
  int16 (3 * 6) /\ -32768 < 3 * -8 <= 32767 /\
  25 <= 6 * 6 + (-8) * (-8) /\
  exists o1,
    run (process_gain 10) cs_state [motion 6 (-8); motion (3 * 6) (3 * -8)]
    = (mk_state true (pseudo_angle 6 (-8)), [o1; (scroll_event 0, 1)]).
Proof.
  assert (Hk : 0 < 3) by lia.
  assert (Hx : int16 6) by (unfold int16; lia).
  assert (Hy : -32768 < -8 <= 32767) by lia.
  assert (Hkx : int16 (3 * 6)) by (unfold int16; lia).
  assert (Hky : -32768 < 3 * -8 <= 32767) by lia.
  assert (Hm : 25 <= 6 * 6 + (-8) * (-8)) by lia.
  split; [exact Hk|]. split; [exact Hx|]. split; [exact Hy|].
  split; [exact Hkx|]. split; [exact Hky|]. split; [exact Hm|].
  exact (same_direction_scrolls_zero 10 cs_state 3 6 (-8)
           Hk Hx Hy Hkx Hky Hm).
Defined.

(** X11: with the numerator 10 of the pointer file, a rewritten event
    carries an amount between -20 and 20, and the amount is zero exactly
    when the corrected delta is below 103 in absolute value: smaller
    changes of direction are dropped, not accumulated. *)
Theorem circular_scroll_output_bounded (st : circular_scroll_state)
    (event : zmk_input_event) :
  angle_safe event -> on_circle st ->
  let dx := pev_dx (ev_pointing event) in
  let dy := pev_dy (ev_pointing event) in
  let delta := angle_delta (pseudo_angle dx dy) (prev_angle st) in
  let '(st', event', ret) := circular_scroll_process st event in
  ret = 1 ->
  -20 <= pev_dy (ev_pointing event') <= 20 /\
  (pev_dy (ev_pointing event') = 0 <-> -103 < delta < 103).
Proof.
  intros (Hx & Hy) Hst dx dy delta.
  unfold circular_scroll_process, process_gain. fold dx dy.
  unfold int16 in Hx. fold dx in Hx. fold dy in Hy.
  rewrite !to_int16_small by lia. fold delta.
  destruct (negb (is_pointing (ev_type event))); [discriminate|].
  destruct (mag_sq dx dy <? dead_zone_sq); [discriminate|].
  destruct (negb (active st)); [discriminate|].
  intros _. cbn [ev_pointing pev_dy].
  assert (Hd : -2048 <= delta <= 2048).
  { apply angle_delta_bounded; [|exact Hst].
    rewrite pseudo_angle_ideal by (unfold int16; lia).
    apply ideal_angle_range. }
  rewrite scroll_value_exact by lia.
  assert (Hq : -20 <= Z.quot (delta * 10) 1024 <= 20
               /\ (Z.quot (delta * 10) 1024 = 0 <-> -103 < delta < 103)).
  { Z.to_euclidean_division_equations. lia. }
  rewrite to_int16_small by lia. exact Hq.
Qed.

Lemma circular_scroll_output_bounded_witness :
  angle_safe (motion 0 10) /\ on_circle (mk_state true 100) /\
  (let '(st', event', ret) :=
     circular_scroll_process (mk_state true 100) (motion 0 10) in
   ret = 1 ->
   -20 <= pev_dy (ev_pointing event') <= 20 /\
   (pev_dy (ev_pointing event') = 0 <->
    -103 < angle_delta (pseudo_angle 0 10) 100 < 103)).
Proof.
  assert (Hs : angle_safe (motion 0 10))
    by (unfold angle_safe, int16; cbn; lia).
  assert (Hc : on_circle (mk_state true 100))
    by (unfold on_circle; cbn; lia).
  split; [exact Hs|]. split; [exact Hc|].
  exact (circular_scroll_output_bounded (mk_state true 100) (motion 0 10)
           Hs Hc).
Defined.

(** X12: with the numerator 1 of the trackpad file, a rewritten event
    carries an amount between -2 and 2, and the amount is zero exactly
    when the corrected delta is below 1024 in absolute value: the
    trackpad file scrolls only when two consecutive samples differ by a
    quarter turn or more. *)
Theorem trackpad_quarter_turn_threshold
    (st : TrackpadScroll.trackpad_scroll_state) (event : zmk_input_event) :
  angle_safe event -> trackpad_on_circle st ->
  let dx := pev_dx (ev_pointing event) in
  let dy := pev_dy (ev_pointing event) in
  let delta :=
    TrackpadScroll.angle_delta (TrackpadScroll.compute_pseudo_angle dx dy)
      (TrackpadScroll.prev_angle st) in
  let '(st', event', ret) :=
    TrackpadScroll.trackpad_scroll_process st event in
  ret = 1 ->
  -2 <= pev_dy (ev_pointing event') <= 2 /\
  (pev_dy (ev_pointing event') = 0 <-> -1024 < delta < 1024).
Proof.
  intros (Hx & Hy) Hst dx dy delta.
  unfold TrackpadScroll.trackpad_scroll_process, TrackpadScroll.process_gain.
  fold dx dy. unfold int16 in Hx. fold dx in Hx. fold dy in Hy.
  rewrite !to_int16_small by lia. fold delta.
  destruct (negb (is_pointing (ev_type event))); [discriminate|].
  destruct (TrackpadScroll.mag_sq dx dy <? TrackpadScroll.dead_zone_sq);
    [discriminate|].
  destruct (negb (TrackpadScroll.active st)); [discriminate|].
  intros _. cbn [ev_pointing pev_dy].
  assert (Hd : -2048 <= delta <= 2048).
  { unfold delta.
    rewrite trackpad_angle_delta_eq, compute_pseudo_angle_eq.
    apply angle_delta_bounded; [|exact Hst].
    rewrite pseudo_angle_ideal by (unfold int16; lia).
    apply ideal_angle_range. }
  rewrite trackpad_scroll_value_eq, scroll_value_exact by lia.
  assert (Hq : -2 <= Z.quot (delta * 1) 1024 <= 2
               /\ (Z.quot (delta * 1) 1024 = 0 <-> -1024 < delta < 1024)).
  { Z.to_euclidean_division_equations. lia. }
  rewrite to_int16_small by lia. exact Hq.
Qed.

Lemma trackpad_quarter_turn_threshold_witness :
  angle_safe (motion 10 10) /\
  trackpad_on_circle (TrackpadScroll.mk_state true 0) /\
  (let '(st', event', ret) :=
     TrackpadScroll.trackpad_scroll_process
       (TrackpadScroll.mk_state true 0) (motion 10 10) in
   ret = 1 ->
   -2 <= pev_dy (ev_pointing event') <= 2 /\
   (pev_dy (ev_pointing event') = 0 <->
    -1024 < TrackpadScroll.angle_delta
              (TrackpadScroll.compute_pseudo_angle 10 10) 0 < 1024)).
Proof.
  assert (Hs : angle_safe (motion 10 10))
    by (unfold angle_safe, int16; cbn; lia).
  assert (Hc : trackpad_on_circle (TrackpadScroll.mk_state true 0))
    by (unfold trackpad_on_circle; cbn; lia).
  split; [exact Hs|]. split; [exact Hc|].
  exact (trackpad_quarter_turn_threshold (TrackpadScroll.mk_state true 0)
           (motion 10 10) Hs Hc).
Defined.

(** The input type of an event is never changed. *)
Lemma process_keeps_type (gain : Z) (st : circular_scroll_state)
    (event : zmk_input_event) :
  ev_type (snd (fst (process_gain gain st event))) = ev_type event.
Proof.
  unfold process_gain.
  destruct (negb (is_pointing (ev_type event))); [reflexivity|].
  destruct (mag_sq _ _ <? dead_zone_sq); [reflexivity|].
  destruct (negb (active st)); reflexivity.
Qed.

(** X13: events of other types are transparent: taking them out of a
    sequence changes neither the final state nor what is done to the
    pointing events. *)
Theorem non_pointing_events_transparent (gain : Z)
    (events : list zmk_input_event) :
  forall st : circular_scroll_state,
    run (process_gain gain) st (filter pointing_event events)
    = (fst (run (process_gain gain) st events),
       filter pointing_output (snd (run (process_gain gain) st events))).
Proof.
  induction events as [|e rest IH]; intros st; [reflexivity|].
  cbn [filter run]. unfold pointing_event at 1.
  destruct (is_pointing (ev_type e)) eqn:Hp.
  - cbn [run]. pose proof (process_keeps_type gain st e) as Ht.
    destruct (process_gain gain st e) as [[st1 e1] r]. cbn [fst snd] in Ht.
    rewrite (IH st1).
    destruct (run (process_gain gain) st1 rest) as [st2 out].
    cbn [fst snd filter].
    change (pointing_output (e1, r)) with (is_pointing (ev_type e1)).
    rewrite Ht, Hp. reflexivity.
  - rewrite (non_pointing_step gain st e Hp). rewrite (IH st).
    destruct (run (process_gain gain) st rest) as [st2 out].
    cbn [fst snd filter].
    change (pointing_output (e, 0)) with (is_pointing (ev_type e)).
    rewrite Hp. reflexivity.
Qed.

End Behaviour.

(** ** Instances *)

Section Instances.

Import CircularScroll.

Lemma checked_process_total_witness :
  -16383 <= 10 <= 16383 /\ overflow_safe (motion 0 10) /\
  on_circle (mk_state true 0) /\
  Checked.process_gain 10 (mk_state true 0) (motion 0 10)
  = Checked.Ok (process_gain 10 (mk_state true 0) (motion 0 10)).
Proof.
  assert (Hg : -16383 <= 10 <= 16383) by lia.
  assert (Hs : overflow_safe (motion 0 10))
    by (unfold overflow_safe; cbn; lia).
  assert (Hc : on_circle (mk_state true 0)) by (unfold on_circle; cbn; lia).
  split; [exact Hg|]. split; [exact Hs|]. split; [exact Hc|].
  exact (checked_process_total 10 (mk_state true 0) (motion 0 10) Hg Hs Hc).
Defined.

Lemma run_on_circle_witness :
  Forall angle_safe [motion 10 0; motion 1024 (-1)] /\
  on_circle cs_state /\
  on_circle
    (fst (run (process_gain 10) cs_state [motion 10 0; motion 1024 (-1)])).
Proof.
  assert (Hs : Forall angle_safe [motion 10 0; motion 1024 (-1)]).
  { repeat constructor; unfold int16; cbn; lia. }
  assert (Hc : on_circle cs_state) by (unfold on_circle; cbn; lia).
  split; [exact Hs|]. split; [exact Hc|].
  exact (run_on_circle 10 [motion 10 0; motion 1024 (-1)] Hs cs_state Hc).
Defined.

Lemma tracking_delta_bounded_witness :
  int16 (-32768) /\ int16 5 /\ -32768 < 5 /\
  on_circle (mk_state true 4096) /\
  -2048 <= angle_delta (pseudo_angle (-32768) 5) 4096 <= 2048.
Proof.
  assert (Hx : int16 (-32768)) by (unfold int16; lia).
  assert (Hy : int16 5) by (unfold int16; lia).
  assert (Hmin : -32768 < 5) by lia.
  assert (Hc : on_circle (mk_state true 4096))
    by (unfold on_circle; cbn; lia).
  split; [exact Hx|]. split; [exact Hy|]. split; [exact Hmin|].
  split; [exact Hc|].
  exact (tracking_delta_bounded (mk_state true 4096) (-32768) 5
           Hx Hy Hmin Hc).
Defined.

End Instances.
